(** * advanced-shell: job table, parser, validator and dispatcher

    A shallow embedding of the Go sources of the shell
    ([internal/shell]: job manager, command parser, command handler, shell
    loop; [pkg/types]: the job record) and the properties its design
    document states about them.

    Modelling conventions.
    - A Go [string] is a [string] of bytes; [len] is [String.length].  The
      [range] loop of the tokenizer decodes the bytes as UTF-8, rune by
      rune, and [WriteRune] encodes a rune again.
    - A Go [int] is a [Z]; [time.Time] is a [Z] clock reading.
    - [*types.Job] is a location in a store of job records; the job table
      [map[int]*types.Job] is a finite map from ids to locations, so a
      mutation through a pointer is seen by every holder of the pointer.
    - [*exec.Cmd] and [*os.Process] are nil-able and are options.
    - [fmt.Errorf] and [fmt.Printf] keep their format string and their
      arguments unrendered; a format string is the text between the quotes
      of the Go literal, escape sequences as written.
    - The operating system (signal delivery, [Wait], the clock, PATH
      lookup) is an oracle that answers from the history of events so far;
      every interaction is appended to the trace of the state. *)

From Stdlib Require Import ZArith String Ascii List Lia Bool.
From stdpp Require Import base option list gmap strings sorting.

Local Open Scope string_scope.
Local Open Scope list_scope.
Local Open Scope Z_scope.

(** ** pkg/types *)

Module types.

Definition JobStatus := string.
Definition JobStatusRunning : JobStatus := "Running".
Definition JobStatusStopped : JobStatus := "Stopped".
Definition JobStatusDone : JobStatus := "Done".

(** [os.Process]: the handle signals are sent to. *)
Record OsProcess := { Pid : Z }.

(** [exec.Cmd]: only the fields the shell reads. *)
Record ExecCmd := { Path : string; Process : option OsProcess }.

Record Job := mkJob {
  ID : Z;
  PID : Z;
  Command : string;
  Args : list string;
  Status : JobStatus;
  Cmd : option ExecCmd;
  StartTime : Z;
  EndTime : option Z;
  Background : bool
}.

Definition set_Status (v : JobStatus) (j : Job) : Job :=
  mkJob (ID j) (PID j) (Command j) (Args j) v (Cmd j) (StartTime j)
        (EndTime j) (Background j).
Definition set_Background (v : bool) (j : Job) : Job :=
  mkJob (ID j) (PID j) (Command j) (Args j) (Status j) (Cmd j) (StartTime j)
        (EndTime j) v.
Definition set_EndTime (v : option Z) (j : Job) : Job :=
  mkJob (ID j) (PID j) (Command j) (Args j) (Status j) (Cmd j) (StartTime j)
        v (Background j).

End types.
Import types.

(** ** Errors, output and the operating system *)

(** An argument of a format string. *)
Inductive fmtarg :=
| AInt (n : Z)
| AStr (s : string)
| AErr (e : error)
(** A Go [error]: one made by [fmt.Errorf], or one the OS hands back. *)
with error :=
| Errorf (format : string) (args : list fmtarg)
| OsError (msg : string).

Inductive Signal := SIGCONT | SIGKILL.

Inductive Event :=
| EvPrintf (format : string) (args : list fmtarg)
| EvPrintln (line : string)
| EvSignal (p : OsProcess) (sig : Signal) (res : option error)
| EvWait (c : ExecCmd) (res : option error)
| EvNow (t : Z)
| EvLookPath (name : string) (found : bool).

(** The oracle.  Each answer may depend on everything that happened before. *)
Record OS := {
  os_signal : list Event -> OsProcess -> Signal -> option error;
  (** [None]: the process never exits and [Wait] never returns. *)
  os_wait : list Event -> ExecCmd -> option (option error);
  os_now : list Event -> Z;
  (** [exec.LookPath] finds the name. *)
  os_lookpath : list Event -> string -> bool
}.

(** ** The state and the monad of shell code *)

Definition loc := nat.

(** [JobManager]: the two fields of the struct. *)
Record JobManager := mkJM {
  jobs : gmap Z loc;
  jobCounter : Z
}.

Record State := mkState {
  heap : loc -> Job;       (* the job records, by address *)
  next_loc : loc;          (* next address handed out by an allocation *)
  jm : JobManager;
  trace : list Event       (* oldest event first *)
}.

(** A call returns a value in a new state, or blocks for ever in [Wait]. *)
Inductive outcome (A : Type) :=
| Returns (a : A) (s : State)
| Blocks (s : State).
Arguments Returns {A} a s.
Arguments Blocks {A} s.

Definition M (A : Type) := State -> outcome A.

Definition ret {A} (a : A) : M A := fun s => Returns a s.
Definition bind {A B} (c : M A) (k : A -> M B) : M B :=
  fun s => match c s with
           | Returns a s' => k a s'
           | Blocks s' => Blocks s'
           end.

Notation "x <- c ;; k" := (bind c (fun x => k))
  (at level 62, c at next level, right associativity).
Notation "c ;;; k" := (bind c (fun _ => k))
  (at level 62, right associativity).

Definition emit (e : Event) : M unit :=
  fun s => Returns tt (mkState (heap s) (next_loc s) (jm s) (trace s ++ [e])).

Definition Printf (format : string) (args : list fmtarg) : M unit :=
  emit (EvPrintf format args).
Definition Println (line : string) : M unit := emit (EvPrintln line).

(** [*job]: read the record behind the pointer. *)
Definition load (l : loc) : M Job := fun s => Returns (heap s l) s.

(** [job.f = v]: update the record behind the pointer. *)
Definition modify (l : loc) (f : Job -> Job) : M unit :=
  fun s => Returns tt
    (mkState (fun l' => if Nat.eqb l' l then f (heap s l) else heap s l')
             (next_loc s) (jm s) (trace s)).

Definition get_jobs : M (gmap Z loc) := fun s => Returns (jobs (jm s)) s.

(** [delete(jm.jobs, id)] *)
Definition delete_job (id : Z) : M unit :=
  fun s => Returns tt
    (mkState (heap s) (next_loc s)
             (mkJM (delete id (jobs (jm s))) (jobCounter (jm s))) (trace s)).

(** ** CommandParser *)

Module parsed.
Record ParsedCommand := mkParsed {
  Command : string;
  Args : list string;
  Background : bool;
  Pipes : list (list string)
}.
End parsed.
Import (notations) parsed.
Abbreviation ParsedCommand := parsed.ParsedCommand.

(** The characters the tokenizer looks for. *)
Definition dquote : ascii := "034"%char.
Definition squote : ascii := "'"%char.
Definition space : ascii := " "%char.
Definition tab : ascii := "009"%char.

(** *** Runes

    What [for _, char := range input] and [strings.Builder.WriteRune] do
    is defined by the Go language and its [utf8] package: the loop yields
    the code points of the string and, for a byte that does not begin a
    valid encoding, the replacement character while advancing one byte. *)

Definition rune := Z.

(** [utf8.RuneError], U+FFFD *)
Definition RuneError : rune := 65533.

(** The value of a byte, and [byte(x)]: the low eight bits of [x]. *)
Definition byte_value (b : ascii) : Z := Z.of_N (N_of_ascii b).

Definition byte_of (x : Z) : ascii :=
  Ascii (Z.testbit x 0) (Z.testbit x 1) (Z.testbit x 2) (Z.testbit x 3)
        (Z.testbit x 4) (Z.testbit x 5) (Z.testbit x 6) (Z.testbit x 7).

(** A continuation byte: [locb <= b && b <= hicb]. *)
Definition continuation (b : ascii) : bool :=
  (128 <=? byte_value b) && (byte_value b <=? 191).

(** [b & maskx] *)
Definition maskx (b : ascii) : Z := Z.land (byte_value b) 63.

(** The successive values of [char] in [for _, char := range input]. *)
Fixpoint decode_runes (input : string) : list rune :=
  match input with
  | EmptyString => []
  | String b0 s1 =>
    let c0 := byte_value b0 in
    if c0 <? 128 then c0 :: decode_runes s1
    else if (192 <=? c0) && (c0 <? 224) then
      match s1 with
      | String b1 s2 =>
        let r := Z.lor (Z.shiftl (Z.land c0 31) 6) (maskx b1) in
        if continuation b1 && (127 <? r)
        then r :: decode_runes s2
        else RuneError :: decode_runes s1
      | _ => RuneError :: decode_runes s1
      end
    else if (224 <=? c0) && (c0 <? 240) then
      match s1 with
      | String b1 (String b2 s3) =>
        let r := Z.lor (Z.lor (Z.shiftl (Z.land c0 15) 12) (Z.shiftl (maskx b1) 6))
                       (maskx b2) in
        if continuation b1 && continuation b2 && (2047 <? r) &&
           negb ((55296 <=? r) && (r <=? 57343))
        then r :: decode_runes s3
        else RuneError :: decode_runes s1
      | _ => RuneError :: decode_runes s1
      end
    else if (240 <=? c0) && (c0 <? 248) then
      match s1 with
      | String b1 (String b2 (String b3 s4)) =>
        let r := Z.lor (Z.lor (Z.lor (Z.shiftl (Z.land c0 7) 18)
                                     (Z.shiftl (maskx b1) 12))
                              (Z.shiftl (maskx b2) 6))
                       (maskx b3) in
        if continuation b1 && continuation b2 && continuation b3 &&
           (65535 <? r) && (r <=? 1114111)
        then r :: decode_runes s4
        else RuneError :: decode_runes s1
      | _ => RuneError :: decode_runes s1
      end
    else RuneError :: decode_runes s1
  end.

(** The three bytes of a rune of the basic plane. *)
Definition encode3 (r : rune) : string :=
  String (byte_of (Z.lor 224 (Z.shiftr r 12)))
    (String (byte_of (Z.lor 128 (Z.land (Z.shiftr r 6) 63)))
       (String (byte_of (Z.lor 128 (Z.land r 63))) "")).

(** [utf8.AppendRune]: the bytes that [WriteRune] appends. *)
Definition EncodeRune (r : rune) : string :=
  if (0 <=? r) && (r <=? 127) then String (byte_of r) ""
  else if (0 <=? r) && (r <=? 2047) then
    String (byte_of (Z.lor 192 (Z.shiftr r 6)))
      (String (byte_of (Z.lor 128 (Z.land r 63))) "")
  else if (r <? 0) || (1114111 <? r) || ((55296 <=? r) && (r <=? 57343)) then
    encode3 RuneError
  else if r <=? 65535 then encode3 r
  else
    String (byte_of (Z.lor 240 (Z.shiftr r 18)))
      (String (byte_of (Z.lor 128 (Z.land (Z.shiftr r 12) 63)))
         (String (byte_of (Z.lor 128 (Z.land (Z.shiftr r 6) 63)))
            (String (byte_of (Z.lor 128 (Z.land r 63))) ""))).

(** The runes the tokenizer looks for: the double quote, the single quote,
    the space and the tab. *)
Definition rune_dquote : rune := 34.
Definition rune_squote : rune := 39.
Definition rune_space : rune := 32.
Definition rune_tab : rune := 9.

(** The four local variables of [tokenize]. *)
Record tokstate := mkTok {
  tokens : list string;
  current : string;       (* strings.Builder *)
  inQuotes : bool;
  quoteChar : rune
}.

Definition WriteRune (st : tokstate) (char : rune) : tokstate :=
  mkTok (tokens st) (current st +:+ EncodeRune char) (inQuotes st) (quoteChar st).

(** One pass of the body of the [range] loop: the [switch]. *)
Definition tokenize_step (st : tokstate) (char : rune) : tokstate :=
  if (char =? rune_dquote) || (char =? rune_squote) then
    if negb (inQuotes st) then
      mkTok (tokens st) (current st) true char
    else if char =? quoteChar st then
      mkTok (tokens st) (current st) false 0
    else WriteRune st char
  else if (char =? rune_space) || (char =? rune_tab) then
    if inQuotes st then WriteRune st char
    else if (0 <? String.length (current st))%nat then
      mkTok (tokens st ++ [current st]) "" (inQuotes st) (quoteChar st)
    else st
  else WriteRune st char.

Fixpoint tokenize_range (runes : list rune) (st : tokstate) : tokstate :=
  match runes with
  | [] => st
  | char :: rest => tokenize_range rest (tokenize_step st char)
  end.

Definition tokenize (input : string) : list string :=
  let st := tokenize_range (decode_runes input) (mkTok [] "" false 0) in
  if (0 <? String.length (current st))%nat
  then tokens st ++ [current st]
  else tokens st.

(** [strings.HasSuffix] and [strings.TrimSuffix], as the library writes
    them: by slicing. *)
Definition HasSuffix (s suffix : string) : bool :=
  (String.length suffix <=? String.length s)%nat &&
  String.eqb (substring (String.length s - String.length suffix)
                        (String.length suffix) s) suffix.

Definition TrimSuffix (s suffix : string) : string :=
  if HasSuffix s suffix
  then substring 0 (String.length s - String.length suffix) s
  else s.

(** [strings.Contains]: [substr] occurs in [s]. *)
Fixpoint Contains (s substr : string) : bool :=
  if String.prefix substr s then true
  else match s with
       | EmptyString => false
       | String _ rest => Contains rest substr
       end.

Fixpoint IndexByte (chars : string) (c : ascii) : bool :=
  match chars with
  | EmptyString => false
  | String c' rest => Ascii.eqb c c' || IndexByte rest c
  end.

(** [strings.ContainsAny]: some character of [s] is one of [chars]. *)
Fixpoint ContainsAny (s chars : string) : bool :=
  match s with
  | EmptyString => false
  | String c rest => IndexByte chars c || ContainsAny rest chars
  end.

Definition builtins : gmap string bool :=
  list_to_map
    [("cd", true); ("pwd", true); ("exit", true); ("echo", true);
     ("clear", true); ("ls", true); ("cat", true); ("mkdir", true);
     ("rmdir", true); ("rm", true); ("touch", true); ("kill", true);
     ("jobs", true); ("fg", true); ("bg", true); ("help", true)].

(** A missing key reads as the zero value [false]. *)
Definition IsBuiltinCommand (command : string) : bool :=
  default false (builtins !! command).

(** [parsed] may be [nil]. *)
Definition ValidateCommand (parsed : option ParsedCommand) : option error :=
  match parsed with
  | None => None
  | Some parsed =>
    if String.eqb (parsed.Command parsed) "" then None
    else if Contains (parsed.Command parsed) ".." then
      Some (Errorf "potentially dangerous path detected: %s"
                   [AStr (parsed.Command parsed)])
    else if ContainsAny (parsed.Command parsed) "|;&<>(){}[]" then
      Some (Errorf "invalid characters in command name: %s"
                   [AStr (parsed.Command parsed)])
    else if (256 <? String.length (parsed.Command parsed))%nat then
      Some (Errorf "command name too long (max 256 characters)" [])
    else
      match list_find (fun arg => (1024 < String.length arg)%nat)
                      (parsed.Args parsed) with
      | Some (i, _) =>
        Some (Errorf "argument %d too long (max 1024 characters)"
                     [AInt (Z.of_nat i)])
      | None =>
        if (100 <? length (parsed.Args parsed))%nat then
          Some (Errorf "too many arguments (max 100)" [])
        else None
      end
  end.

(** A model of [strconv.Atoi] for the examples: an optional sign, then at
    least one decimal digit, the value within the 64-bit range. *)
Definition digit_of (c : ascii) : option Z :=
  let n := Z.of_nat (nat_of_ascii c) in
  if (48 <=? n) && (n <=? 57) then Some (n - 48) else None.

Fixpoint digits_value (s : string) (acc : Z) : option Z :=
  match s with
  | EmptyString => Some acc
  | String c rest =>
    match digit_of c with
    | Some d => digits_value rest (acc * 10 + d)
    | None => None
    end
  end.

Definition decimal_Atoi (s : string) : option Z :=
  let signed (neg : bool) (ds : string) :=
    match ds with
    | EmptyString => None
    | _ => match digits_value ds 0 with
           | Some v => let n := if neg then - v else v in
                       if (- 2 ^ 63 <=? n) && (n <=? 2 ^ 63 - 1)
                       then Some n else None
           | None => None
           end
    end in
  match s with
  | String "-" rest => signed true rest
  | String "+" rest => signed false rest
  | _ => signed false s
  end.

(** A model of [strings.TrimSpace] for the examples, on single-byte text:
    the white space of ASCII. *)
Definition is_space (c : ascii) : bool :=
  let n := nat_of_ascii c in
  ((9 <=? n) && (n <=? 13) || (n =? 32))%nat.

Fixpoint trim_left (s : string) : string :=
  match s with
  | String c rest => if is_space c then trim_left rest else s
  | EmptyString => s
  end.

Fixpoint trim_right (s : string) : string :=
  match s with
  | String c rest =>
    match trim_right rest with
    | EmptyString => if is_space c then EmptyString else String c EmptyString
    | r => String c r
    end
  | EmptyString => s
  end.

Definition ascii_TrimSpace (s : string) : string := trim_right (trim_left s).

(** The calls a client of the job manager can make. *)
Inductive call :=
| CallRegister (processHandle : ExecCmd) (commandText : string) (background : bool)
| CallForeground (jobID : Z)
| CallBackground (jobID : Z)
| CallKill (jobID : Z)
| CallCleanup.

Section Shell.

(** The operating system. *)
Variable os : OS.

(** The library functions the sources call and do not define. *)
Variable TrimSpace : string -> string.
Variable Atoi : string -> option Z.

(** The built-in handlers that touch the file system, the terminal or the
    process itself ([cd], [pwd], [exit], [echo], [clear], [ls], [cat],
    [mkdir], [rmdir], [rm], [touch], [kill], [jobs], [help]). *)
Variable other_builtin : string -> list string -> M (option error).

Definition Parse (input : string) : option ParsedCommand :=
  let input := TrimSpace input in
  if String.eqb input "" then None
  else
    let '(background, input) :=
      if HasSuffix input "&"
      then (true, TrimSpace (TrimSuffix input "&"))
      else (false, input) in
    let args := tokenize input in
    match args with
    | [] => None
    | arg0 :: _ => Some (parsed.mkParsed arg0 args background [args])
    end.

(** [p.Signal(sig)] and [p.Kill()] *)
Definition signal (p : OsProcess) (sig : Signal) : M (option error) :=
  fun s => let r := os_signal os (trace s) p sig in
           Returns r (mkState (heap s) (next_loc s) (jm s)
                              (trace s ++ [EvSignal p sig r])).

(** [cmd.Wait()] *)
Definition wait (c : ExecCmd) : M (option error) :=
  fun s => match os_wait os (trace s) c with
           | Some r => Returns r (mkState (heap s) (next_loc s) (jm s)
                                          (trace s ++ [EvWait c r]))
           | None => Blocks s
           end.

(** [time.Now()] *)
Definition now : M Z :=
  fun s => let t := os_now os (trace s) in
           Returns t (mkState (heap s) (next_loc s) (jm s)
                              (trace s ++ [EvNow t])).

(** [job.Cmd != nil && job.Cmd.Process != nil], with the process. *)
Definition live_process (j : Job) : option (ExecCmd * OsProcess) :=
  match Cmd j with
  | Some c => match Process c with
              | Some p => Some (c, p)
              | None => None
              end
  | None => None
  end.

(** *** JobManager *)

Definition NewJobManager : JobManager := mkJM ∅ 0.

Definition GetJob (jobID : Z) : M (loc + error) :=
  js <- get_jobs ;;
  match js !! jobID with
  | None => ret (inr (Errorf "job %d not found" [AInt jobID]))
  | Some job => ret (inl job)
  end.

(** The order of a Go map iteration is not specified; the model takes
    the order of [map_to_list]. *)
Definition GetAllJobs : M (list loc) :=
  js <- get_jobs ;;
  ret (map snd (map_to_list js)).

Definition BringToForeground (jobID : Z) : M (option error) :=
  r <- GetJob jobID ;;
  match r with
  | inr err => ret (Some err)
  | inl job =>
    j <- load job ;;
    if String.eqb (Status j) JobStatusDone then
      ret (Some (Errorf "job %d has already completed" [AInt jobID]))
    else
      Printf "Bringing job [%d] to foreground: %s\n"
             [AInt (ID j); AStr (Command j)] ;;;
      match live_process j with
      | Some (c, p) =>
        serr <- (if String.eqb (Status j) JobStatusStopped
                 then signal p SIGCONT else ret None) ;;
        match serr with
        | Some err => ret (Some (Errorf "failed to resume job: %v" [AErr err]))
        | None =>
          modify job (set_Status JobStatusRunning) ;;;
          modify job (set_Background false) ;;;
          werr <- wait c ;;
          (match werr with
           | Some err =>
             j' <- load job ;;
             Printf "Job [%d] exited with error: %v\n" [AInt (ID j'); AErr err]
           | None => ret tt
           end) ;;;
          modify job (set_Status JobStatusDone) ;;;
          endTime <- now ;;
          modify job (set_EndTime (Some endTime)) ;;;
          delete_job jobID ;;;
          ret None
        end
      | None =>
        delete_job jobID ;;;
        ret None
      end
  end.

Definition ResumeInBackground (jobID : Z) : M (option error) :=
  r <- GetJob jobID ;;
  match r with
  | inr err => ret (Some err)
  | inl job =>
    j <- load job ;;
    if String.eqb (Status j) JobStatusDone then
      ret (Some (Errorf "job %d has already completed" [AInt jobID]))
    else if negb (String.eqb (Status j) JobStatusStopped) then
      ret (Some (Errorf "job %d is not stopped" [AInt jobID]))
    else
      Printf "Resuming job [%d] in background: %s\n"
             [AInt (ID j); AStr (Command j)] ;;;
      match live_process j with
      | Some (c, p) =>
        serr <- signal p SIGCONT ;;
        match serr with
        | Some err => ret (Some (Errorf "failed to resume job: %v" [AErr err]))
        | None =>
          modify job (set_Status JobStatusRunning) ;;;
          modify job (set_Background true) ;;;
          ret None
        end
      | None => ret None
      end
  end.

Definition KillJob (jobID : Z) : M (option error) :=
  r <- GetJob jobID ;;
  match r with
  | inr err => ret (Some err)
  | inl job =>
    j <- load job ;;
    if String.eqb (Status j) JobStatusDone then
      ret (Some (Errorf "job %d has already completed" [AInt jobID]))
    else
      Printf "Terminating job [%d]: %s\n" [AInt (ID j); AStr (Command j)] ;;;
      match live_process j with
      | Some (c, p) =>
        kerr <- signal p SIGKILL ;;
        match kerr with
        | Some err => ret (Some (Errorf "failed to kill job: %v" [AErr err]))
        | None =>
          modify job (set_Status JobStatusDone) ;;;
          endTime <- now ;;
          modify job (set_EndTime (Some endTime)) ;;;
          ret None
        end
      | None => ret None
      end
  end.

(** The body of the [range] loop of [CleanupCompletedJobs], run over the
    entries in the order the iteration produces them.  Only the entry
    being visited is ever deleted, so every entry of the map is
    visited exactly once. *)
Fixpoint cleanup_range (entries : list (Z * loc)) : M unit :=
  match entries with
  | [] => ret tt
  | (id, job) :: rest =>
    j <- load job ;;
    (if String.eqb (Status j) JobStatusDone then delete_job id else ret tt) ;;;
    cleanup_range rest
  end.

Definition CleanupCompletedJobs : M unit :=
  js <- get_jobs ;;
  cleanup_range (map_to_list js).

(** Modelled from the spec: the job manager of the sources declares the
    counter [jobCounter] and the table and has no operation that inserts a
    job.  The design document's [register(processHandle, commandText,
    background)] allocates the next integer id and inserts a new job with
    status [Running] and [startTime = now]. *)
Definition register (processHandle : ExecCmd) (commandText : string)
    (background : bool) : M Z :=
  startTime <- now ;;
  fun s =>
    let id := jobCounter (jm s) + 1 in
    let job := next_loc s in
    let j := mkJob id
                   (match Process processHandle with
                    | Some p => Pid p | None => 0 end)
                   commandText [] JobStatusRunning (Some processHandle)
                   startTime None background in
    Returns id
      (mkState (fun l => if Nat.eqb l job then j else heap s l)
               (S (next_loc s))
               (mkJM (<[id := job]> (jobs (jm s))) id)
               (trace s)).

(** *** CommandHandler *)

Definition handleFG (args : list string) : M (option error) :=
  if (length args <? 2)%nat then
    ret (Some (Errorf "fg: missing job ID\nUsage: fg [job_id]\nUse 'jobs' to see available jobs" []))
  else if (2 <? length args)%nat then
    ret (Some (Errorf "fg: too many arguments" []))
  else
    let jobIDStr := nth 1 args "" in
    if String.eqb jobIDStr "" then
      ret (Some (Errorf "fg: empty job ID" []))
    else
      match Atoi jobIDStr with
      | None =>
        ret (Some (Errorf "fg: invalid job ID '%s': not a number" [AStr jobIDStr]))
      | Some jobID =>
        if jobID <=? 0 then
          ret (Some (Errorf "fg: invalid job ID %d: must be positive" [AInt jobID]))
        else
          allJobs <- GetAllJobs ;;
          if (length allJobs =? 0)%nat then
            ret (Some (Errorf "fg: no jobs to bring to foreground" []))
          else BringToForeground jobID
      end.

Definition handleBG (args : list string) : M (option error) :=
  if (length args <? 2)%nat then
    ret (Some (Errorf "bg: missing job ID\nUsage: bg [job_id]\nUse 'jobs' to see available jobs" []))
  else if (2 <? length args)%nat then
    ret (Some (Errorf "bg: too many arguments" []))
  else
    let jobIDStr := nth 1 args "" in
    if String.eqb jobIDStr "" then
      ret (Some (Errorf "bg: empty job ID" []))
    else
      match Atoi jobIDStr with
      | None =>
        ret (Some (Errorf "bg: invalid job ID '%s': not a number" [AStr jobIDStr]))
      | Some jobID =>
        if jobID <=? 0 then
          ret (Some (Errorf "bg: invalid job ID %d: must be positive" [AInt jobID]))
        else
          allJobs <- GetAllJobs ;;
          if (length allJobs =? 0)%nat then
            ret (Some (Errorf "bg: no jobs to resume in background" []))
          else ResumeInBackground jobID
      end.

Definition HandleCommand (parsed : option ParsedCommand) : M (option error) :=
  match parsed with
  | None => ret None
  | Some parsed =>
    let name := parsed.Command parsed in
    if String.eqb name "" then ret None
    else if String.eqb name "fg" then handleFG (parsed.Args parsed)
    else if String.eqb name "bg" then handleBG (parsed.Args parsed)
    else if existsb (String.eqb name)
              ["cd"; "pwd"; "exit"; "echo"; "clear"; "ls"; "cat"; "mkdir";
               "rmdir"; "rm"; "touch"; "kill"; "jobs"; "help"]
    then other_builtin name (parsed.Args parsed)
    else ret (Some (Errorf "unknown built-in command: %s" [AStr name]))
  end.

(** *** Shell *)

(** [exec.LookPath(name)]: whether it finds the name. *)
Definition LookPath (name : string) : M bool :=
  fun s => let found := os_lookpath os (trace s) name in
           Returns found (mkState (heap s) (next_loc s) (jm s)
                                  (trace s ++ [EvLookPath name found])).

Definition processInput (input : string) : M (option error) :=
  match Parse input with
  | None => ret None
  | Some parsed =>
    match ValidateCommand (Some parsed) with
    | Some err => ret (Some err)
    | None =>
      if IsBuiltinCommand (parsed.Command parsed) then
        HandleCommand (Some parsed)
      else
        found <- LookPath (parsed.Command parsed) ;;
        if negb found then
          ret (Some (Errorf "%s: command not found" [AStr (parsed.Command parsed)]))
        else
          ret (Some (Errorf "%s: command not found (only built-in commands are supported)"
                            [AStr (parsed.Command parsed)]))
    end
  end.

(** *** Clients of the job manager *)

(** One call; the id when the call is a [register]. *)
Definition run_call (c : call) : M (option Z) :=
  match c with
  | CallRegister h text bg => id <- register h text bg ;; ret (Some id)
  | CallForeground jobID => BringToForeground jobID ;;; ret None
  | CallBackground jobID => ResumeInBackground jobID ;;; ret None
  | CallKill jobID => KillJob jobID ;;; ret None
  | CallCleanup => CleanupCompletedJobs ;;; ret None
  end.

(** A sequence of calls; the ids that its [register] calls returned, in
    the order of the calls. *)
Fixpoint run_calls (cs : list call) : M (list Z) :=
  match cs with
  | [] => ret []
  | c :: rest =>
    r <- run_call c ;;
    ids <- run_calls rest ;;
    ret (match r with Some id => id :: ids | None => ids end)
  end.

End Shell.

(** ** More of the job manager, the command handler and the shell *)

(** [time.Second] and [time.Millisecond], in nanoseconds. *)
Definition time_Second : Z := 1000000000.
Definition time_Millisecond : Z := 1000000.

Section Builtins.

Variable os : OS.

(** The library and system functions these handlers call. *)
Variable Atoi : string -> option Z.
(** [fmt.Sprintf] *)
Variable Sprintf : string -> list fmtarg -> string.
(** [os.Getpid()] *)
Variable Getpid : Z.
(** [os.FindProcess(pid)]: the error it returns, if any; the handle it
    returns otherwise is the process with that pid. *)
Variable FindProcess : list Event -> Z -> option error.
(** [t.Sub(u)] and [d.Round(m)] *)
Variable Sub : Z -> Z -> Z.
Variable Round : Z -> Z -> Z.
(** [time.Sleep(d)] *)
Variable Sleep : Z -> M unit.
(** The order in which a [range] over the job table visits its entries.
    Go leaves it unspecified and it may differ from one loop to the next:
    it is a choice of the run, made when the loop starts. *)
Variable range_order : list Event -> gmap Z loc -> list (Z * loc).

(** The body of the [range] loop of [ListJobs]; [time.Since] reads the
    clock. *)
Fixpoint list_range (entries : list (Z * loc)) : M unit :=
  match entries with
  | [] => ret tt
  | (_, job) :: rest =>
    j <- load job ;;
    t <- now os ;;
    let duration := Sub t (StartTime j) in
    let duration := match EndTime j with
                    | Some endTime => Sub endTime (StartTime j)
                    | None => duration
                    end in
    Printf "[%d] %s %s (PID: %d, Duration: %v)\n"
           [AInt (ID j); AStr (Status j); AStr (Command j); AInt (PID j);
            AInt (Round duration time_Second)] ;;;
    list_range rest
  end.

(** [for _, job := range jm.jobs]: the entries in the order of this run. *)
Definition range_jobs (js : gmap Z loc) : M (list (Z * loc)) :=
  fun s => Returns (range_order (trace s) js) s.

Definition ListJobs : M unit :=
  js <- get_jobs ;;
  if (size js =? 0)%nat then Println "No active jobs"
  else
    Println "Active jobs:" ;;;
    entries <- range_jobs js ;;
    list_range entries.

Definition handleJobs (args : list string) : M (option error) :=
  CleanupCompletedJobs ;;;
  ListJobs ;;;
  ret None.

(** The [for] loop of [handleKill] over the operands [args[1:]], with its
    two accumulators. *)
Fixpoint kill_range (operands : list string) (errors : list string) (killed : Z) :
    M (list string * Z) :=
  match operands with
  | [] => ret (errors, killed)
  | pidStr :: rest =>
    if String.eqb pidStr "" then
      kill_range rest (errors ++ ["empty PID"]) killed
    else
      match Atoi pidStr with
      | None =>
        kill_range rest
          (errors ++ [Sprintf "invalid PID '%s': not a number" [AStr pidStr]]) killed
      | Some pid =>
        if pid <=? 0 then
          kill_range rest
            (errors ++ [Sprintf "invalid PID %d: must be positive" [AInt pid]]) killed
        else if pid =? 1 then
          kill_range rest (errors ++ ["cannot kill init process (PID 1)"]) killed
        else if pid =? Getpid then
          kill_range rest (errors ++ ["cannot kill shell process itself"]) killed
        else
          ferr <- (fun s => Returns (FindProcess (trace s) pid) s) ;;
          match ferr with
          | Some err =>
            kill_range rest
              (errors ++ [Sprintf "process %d not found: %v" [AInt pid; AErr err]])
              killed
          | None =>
            kerr <- signal os (Build_OsProcess pid) SIGKILL ;;
            match kerr with
            | Some err =>
              kill_range rest
                (errors ++ [Sprintf "failed to kill process %d: %v" [AInt pid; AErr err]])
                killed
            | None =>
              Printf "Process %d killed\n" [AInt pid] ;;;
              kill_range rest errors (killed + 1)
            end
          end
      end
  end.

Definition handleKill (args : list string) : M (option error) :=
  if (length args <? 2)%nat then
    ret (Some (Errorf "kill: missing PID\nUsage: kill [pid1] [pid2] ..." []))
  else
    r <- kill_range (drop 1 args) [] 0 ;;
    let '(errors, killed) := r in
    if (0 <? length errors)%nat then
      if killed =? 0 then
        ret (Some (Errorf "kill: %s" [AStr (String.concat "; " errors)]))
      else
        Printf "kill: warnings: %s\n" [AStr (String.concat "; " errors)] ;;;
        ret None
    else ret None.

(** The [range] loop of [shutdown] over the snapshot [GetAllJobs]
    returned; the result of [KillJob] is dropped. *)
Fixpoint shutdown_range (snapshot : list loc) : M unit :=
  match snapshot with
  | [] => ret tt
  | job :: rest =>
    j <- load job ;;
    (if negb (String.eqb (Status j) "Done") then
       Printf "Killing job [%d]: %s\n" [AInt (ID j); AStr (Command j)] ;;;
       KillJob os (ID j) ;;;
       ret tt
     else ret tt) ;;;
    shutdown_range rest
  end.

Definition shutdown : M unit :=
  Println "\nShutting down shell..." ;;;
  allJobs <- GetAllJobs ;;
  (if (0 <? length allJobs)%nat then
     Printf "Terminating %d active job(s)...\n" [AInt (Z.of_nat (length allJobs))] ;;;
     shutdown_range allJobs ;;;
     Sleep (100 * time_Millisecond)
   else ret tt) ;;;
  Println "Goodbye!".

End Builtins.

(** * The vocabulary of the properties *)

(** The events a call appends, seen from the state it started in. *)
Definition appended (s s' : State) (evs : list Event) : Prop :=
  trace s' = trace s ++ evs.

(** The job table of a state: the records and the manager. *)
Definition same_table (s s' : State) : Prop :=
  heap s' = heap s /\ jm s' = jm s.

Definition JobNotFound (jobID : Z) : error :=
  Errorf "job %d not found" [AInt jobID].
Definition JobAlreadyDone (jobID : Z) : error :=
  Errorf "job %d has already completed" [AInt jobID].
Definition JobNotStopped (jobID : Z) : error :=
  Errorf "job %d is not stopped" [AInt jobID].
Definition ResumeFailed (err : error) : error :=
  Errorf "failed to resume job: %v" [AErr err].
Definition KillFailed (err : error) : error :=
  Errorf "failed to kill job: %v" [AErr err].

(** What a call printed first. *)
Definition MsgTerminating (j : Job) : Event :=
  EvPrintf "Terminating job [%d]: %s\n" [AInt (ID j); AStr (Command j)].
Definition MsgResuming (j : Job) : Event :=
  EvPrintf "Resuming job [%d] in background: %s\n" [AInt (ID j); AStr (Command j)].
Definition MsgBringing (j : Job) : Event :=
  EvPrintf "Bringing job [%d] to foreground: %s\n" [AInt (ID j); AStr (Command j)].

(** Only the record at [job] differs between the two states. *)
Definition only_changed (s s' : State) (job : loc) : Prop :=
  forall l, l <> job -> heap s' l = heap s l.

(** The continue signal goes out only to a stopped job. *)
Definition resume_events (j : Job) (p : OsProcess) : list Event :=
  if String.eqb (Status j) JobStatusStopped
  then [EvSignal p SIGCONT None] else [].

(** What is printed when [Wait] reports an error. *)
Definition exit_events (j : Job) (w : option error) : list Event :=
  match w with
  | Some err => [EvPrintf "Job [%d] exited with error: %v\n" [AInt (ID j); AErr err]]
  | None => []
  end.

(** The test of the loop body on one entry of the table. *)
Definition done_entry (h : loc -> Job) (e : Z * loc) : bool :=
  String.eqb (Status (h e.2)) JobStatusDone.

(** The table after the loop has visited [entries]. *)
Definition swept (h : loc -> Job) (m : gmap Z loc) (entries : list (Z * loc)) :
    gmap Z loc :=
  foldl (fun m e => if done_entry h e then delete e.1 m else m) m entries.

(** The ids of a table in increasing order. *)
Definition job_ids (m : gmap Z loc) : list Z :=
  merge_sort Z.le (map fst (map_to_list m)).

Definition FgNoJobs : error := Errorf "fg: no jobs to bring to foreground" [].
Definition BgNoJobs : error := Errorf "bg: no jobs to resume in background" [].

(** The zero value of [types.Job]. *)
Definition zero_Job : Job := mkJob 0 0 "" [] "" None 0 None false.

(** The state right after [NewJobManager]: no record allocated, an empty
    table, the counter at zero. *)
Definition fresh_state : State := mkState (fun _ => zero_Job) 0%nat NewJobManager [].

(** Every id of the table is positive and at most the counter, every
    record of the table has been allocated, and no two ids share one. *)
Definition table_ok (s : State) : Prop :=
  0 <= jobCounter (jm s) /\
  (forall id job, jobs (jm s) !! id = Some job ->
                  0 < id <= jobCounter (jm s) /\ (job < next_loc s)%nat) /\
  (forall id1 id2 job, jobs (jm s) !! id1 = Some job ->
                       jobs (jm s) !! id2 = Some job -> id1 = id2).

(** A call that does not register keeps the counter and the allocation
    mark, and keeps or drops entries of the table. *)
Definition shrinks (s s' : State) : Prop :=
  jobCounter (jm s') = jobCounter (jm s) /\
  next_loc s' = next_loc s /\
  forall id job, jobs (jm s') !! id = Some job -> jobs (jm s) !! id = Some job.

Definition is_quote (c : ascii) : bool := Ascii.eqb c dquote || Ascii.eqb c squote.
Definition is_blank (c : ascii) : bool := Ascii.eqb c space || Ascii.eqb c tab.

(** A line is a sequence of plain characters, blanks outside quotes, and
    quote spans; it may end inside a span that is never closed. *)
Inductive item :=
| Plain (c : ascii)
| Blank (c : ascii)
| Span (q : ascii) (body : string).

(** A plain character is neither a quote nor a blank; a span is opened by
    a quote character and runs to the next occurrence of that character. *)
Definition item_ok (it : item) : Prop :=
  match it with
  | Plain c => is_quote c = false /\ is_blank c = false
  | Blank c => is_blank c = true
  | Span q body => is_quote q = true /\ IndexByte body q = false
  end.

(** The characters of the line an item stands for. *)
Definition render_item (it : item) : string :=
  match it with
  | Plain c => String c ""
  | Blank c => String c ""
  | Span q body => String q (body +:+ String q "")
  end.

Fixpoint render (its : list item) : string :=
  match its with
  | [] => ""
  | it :: rest => render_item it +:+ render rest
  end.

(** A span left open at the end of the line: the quote and what follows. *)
Definition render_open (o : option (ascii * string)) : string :=
  match o with
  | Some (q, body) => String q body
  | None => ""
  end.

Definition backslash : ascii := "092"%char.

(** An unterminated quote closes at the end of the input. *)
Definition close (its : list item) (o : option (ascii * string)) : list item :=
  its ++ match o with
         | Some (q, body) => [Span q body]
         | None => []
         end.

(** What an item adds to the word it is part of: quotes are stripped,
    the inside of a span is literal. *)
Definition text_of (it : item) : string :=
  match it with
  | Plain c => String c ""
  | Blank _ => ""
  | Span _ body => body
  end.

(** The line cut at its blanks. *)
Fixpoint words (its : list item) : list string :=
  match its with
  | [] => [""]
  | Blank _ :: rest => "" :: words rest
  | it :: rest =>
    match words rest with
    | w :: ws => (text_of it +:+ w) :: ws
    | [] => [text_of it]
    end
  end.

(** The words that are not empty. *)
Definition nonempty_words (its : list item) : list string :=
  filter (fun w : string => w <> "") (words its).

(** Reading a line from left to right: [o] is the span that is open. *)
Fixpoint lex (input : string) (o : option (ascii * string)) :
    list item * option (ascii * string) :=
  match input with
  | EmptyString => ([], o)
  | String c rest =>
    match o with
    | Some (q, body) =>
      if Ascii.eqb c q
      then let '(its, o') := lex rest None in (Span q body :: its, o')
      else lex rest (Some (q, body +:+ String c ""))
    | None =>
      if is_quote c then lex rest (Some (c, ""))
      else let '(its, o') := lex rest None in
           ((if is_blank c then Blank c else Plain c) :: its, o')
    end
  end.

(** The line as the loop reads it: every rune encoded again, so that a
    byte that begins no valid encoding has become the replacement
    character. *)
Fixpoint encode_all (runes : list rune) : string :=
  match runes with
  | [] => ""
  | r :: rest => EncodeRune r +:+ encode_all rest
  end.

Definition sanitize (input : string) : string := encode_all (decode_runes input).

(** The line is made of bytes below 128. *)
Fixpoint ascii_only (s : string) : bool :=
  match s with
  | EmptyString => true
  | String b rest => (byte_value b <? 128) && ascii_only rest
  end.

(** The top bit of a byte is set: the byte is part of the encoding of a
    rune above 127. *)
Definition high (b : ascii) : bool :=
  match b with Ascii _ _ _ _ _ _ _ b7 => b7 end.

Fixpoint all_high (s : string) : bool :=
  match s with
  | EmptyString => true
  | String b rest => high b && all_high rest
  end.

(** The loop of [tokenize] on a line of single-byte characters, byte by
    byte: the device by which the loop over runes is compared with the
    reading of a line. *)
Record scanstate := mkScan {
  sc_tokens : list string;
  sc_current : string;
  sc_inQuotes : bool;
  sc_quoteChar : ascii
}.

Definition WriteByte (st : scanstate) (char : ascii) : scanstate :=
  mkScan (sc_tokens st) (sc_current st +:+ String char "") (sc_inQuotes st)
         (sc_quoteChar st).

Definition scan_step (st : scanstate) (char : ascii) : scanstate :=
  if Ascii.eqb char dquote || Ascii.eqb char squote then
    if negb (sc_inQuotes st) then
      mkScan (sc_tokens st) (sc_current st) true char
    else if Ascii.eqb char (sc_quoteChar st) then
      mkScan (sc_tokens st) (sc_current st) false zero
    else WriteByte st char
  else if Ascii.eqb char space || Ascii.eqb char tab then
    if sc_inQuotes st then WriteByte st char
    else if (0 <? String.length (sc_current st))%nat then
      mkScan (sc_tokens st ++ [sc_current st]) "" (sc_inQuotes st) (sc_quoteChar st)
    else st
  else WriteByte st char.

Fixpoint scan_range (input : string) (st : scanstate) : scanstate :=
  match input with
  | EmptyString => st
  | String char rest => scan_range rest (scan_step st char)
  end.

Definition scan_end (st : scanstate) : list string :=
  if (0 <? String.length (sc_current st))%nat
  then sc_tokens st ++ [sc_current st]
  else sc_tokens st.

Definition scan (input : string) : list string :=
  scan_end (scan_range input (mkScan [] "" false zero)).

(** The two loops are in step: the same tokens and word in progress, and
    inside quotes the same quote character. *)
Definition in_step (st : tokstate) (sc : scanstate) : Prop :=
  tokens st = sc_tokens sc /\
  current st = sc_current sc /\
  inQuotes st = sc_inQuotes sc /\
  (inQuotes st = true ->
   quoteChar st = rune_dquote /\ sc_quoteChar sc = dquote \/
   quoteChar st = rune_squote /\ sc_quoteChar sc = squote).

(** The line cut at its blanks, as items; and the text of a field. *)
Fixpoint fields (its : list item) : list (list item) :=
  match its with
  | [] => [[]]
  | Blank _ :: rest => [] :: fields rest
  | it :: rest =>
    match fields rest with
    | f :: fs => (it :: f) :: fs
    | [] => [[it]]
    end
  end.

Fixpoint field_text (f : list item) : string :=
  match f with
  | [] => ""
  | it :: rest => text_of it +:+ field_text rest
  end.

(** The tokens as the design document words them: the line is split at
    the runs of blanks outside spans, so a field is what stands between
    two runs (at least one character or span); each field gives a token,
    its quotes stripped. *)
Definition spec_tokens (its : list item) : list string :=
  map field_text (filter (fun f : list item => f <> []) (fields its)).

(** The word in progress joined to the words that follow. *)
Definition glue (cur : string) (ws : list string) : list string :=
  match ws with
  | w :: rest => (cur +:+ w) :: rest
  | [] => [cur]
  end.




(** * Properties *)

(** ** The job table *)

(** ** The vocabulary of the further properties *)

(** The state a call ends in, returned or blocked. *)
Definition final {A} (o : outcome A) : State :=
  match o with
  | Returns _ s => s
  | Blocks s => s
  end.

(** The records that are [Done] in [s] are the same in [s']. *)
Definition done_frozen (s s' : State) : Prop :=
  forall l, Status (heap s l) = JobStatusDone -> heap s' l = heap s l.

(** A record has its [EndTime] set exactly when it is [Done]. *)
Definition ended_iff_done (s : State) : Prop :=
  forall l, EndTime (heap s l) <> None <-> Status (heap s l) = JobStatusDone.

(** Every record of the table carries the id it is stored under, and a
    record that is not [Done] holds a started process. *)
Definition table_consistent (s : State) : Prop :=
  forall id job, jobs (jm s) !! id = Some job ->
    ID (heap s job) = id /\
    (Status (heap s job) <> JobStatusDone -> live_process (heap s job) <> None).

(** The line [ListJobs] prints for a record when the clock reads [t]. *)
Definition job_line (Sub Round : Z -> Z -> Z) (j : Job) (t : Z) : Event :=
  EvPrintf "[%d] %s %s (PID: %d, Duration: %v)\n"
    [AInt (ID j); AStr (Status j); AStr (Command j); AInt (PID j);
     AInt (Round (match EndTime j with
                  | Some endTime => Sub endTime (StartTime j)
                  | None => Sub t (StartTime j)
                  end) time_Second)].

(** The events of [ListJobs] for the entries of a table: per entry a
    reading of the clock and the line. *)
Definition listing (Sub Round : Z -> Z -> Z) (h : loc -> Job)
    (entries : list (Z * loc)) (times : list Z) : list Event :=
  concat (zip_with (fun e t => [EvNow t; job_line Sub Round (h e.2) t]) entries times).

(** A kill signal that [handleKill] may send: to a process other than
    init and the shell, named by an operand. *)
Definition kill_allowed (Atoi : string -> option Z) (Getpid : Z)
    (operands : list string) (e : Event) : Prop :=
  match e with
  | EvSignal p sig _ =>
    sig = SIGKILL /\ 1 < Pid p /\ Pid p <> Getpid /\
    exists pidStr, In pidStr operands /\ Atoi pidStr = Some (Pid p)
  | EvPrintf _ _ => True
  | _ => False
  end.

(** A kill signal that was delivered. *)
Definition delivered_kill (e : Event) : bool :=
  match e with
  | EvSignal _ SIGKILL None => true
  | _ => false
  end.

(** Splitting at the blanks: the fields between them, empty ones
    included. *)
Fixpoint split_blanks (s : string) : list string :=
  match s with
  | EmptyString => [""]
  | String c rest =>
    if is_blank c then "" :: split_blanks rest
    else match split_blanks rest with
         | w :: ws => String c w :: ws
         | [] => [String c ""]
         end
  end.

(** The string has no quote character. *)
Fixpoint quote_free (s : string) : bool :=
  match s with
  | EmptyString => true
  | String c rest => negb (is_quote c) && quote_free rest
  end.

(** The items of a line without quotes. *)
Fixpoint plain_items (s : string) : list item :=
  match s with
  | EmptyString => []
  | String c rest => (if is_blank c then Blank c else Plain c) :: plain_items rest
  end.

(** The names [HandleCommand] has a case for. *)
Definition handled_names : list string :=
  ["cd"; "pwd"; "exit"; "echo"; "clear"; "ls"; "cat"; "mkdir"; "rmdir"; "rm";
   "touch"; "kill"; "jobs"; "fg"; "bg"; "help"].

(** ** Concrete processes, tables and systems for the examples *)

(** A system that refuses every signal. *)
Definition os_deny : OS :=
  Build_OS (fun _ _ _ => Some (OsError "operation not permitted"))
           (fun _ _ => Some None)
           (fun tr => Z.of_nat (length tr))
           (fun _ _ => false).

(** A system that delivers every signal and in which every process exits. *)
Definition os_fair : OS :=
  Build_OS (fun _ _ _ => None)
           (fun _ _ => Some None)
           (fun tr => Z.of_nat (length tr))
           (fun _ _ => true).

Definition sleep_process : OsProcess := Build_OsProcess 4242.
Definition sleep_cmd : ExecCmd := Build_ExecCmd "/bin/sleep" (Some sleep_process).

Definition sleep_job (st : JobStatus) (c : option ExecCmd) : Job :=
  mkJob 1 4242 "sleep 60" ["sleep"; "60"] st c 0 None true.

(** A table with the one job [1], at address [0]. *)
Definition one_job (st : JobStatus) (c : option ExecCmd) : State :=
  mkState (fun _ => sleep_job st c) 1%nat (mkJM {[ 1 := 0%nat ]} 1) [].

(** A table with a [Done] job [1] and a [Running] job [2]. *)
Definition two_jobs : State :=
  mkState (fun l => if Nat.eqb l 0 then sleep_job JobStatusDone (Some sleep_cmd)
                    else sleep_job JobStatusRunning (Some sleep_cmd))
          2%nat (mkJM (<[ 1 := 0%nat ]> {[ 2 := 1%nat ]}) 2) [].

Ltac run :=
  cbv [BringToForeground ResumeInBackground KillJob GetJob bind ret get_jobs
       load modify delete_job emit Printf Println signal wait now] in *;
  cbn [heap jm trace next_loc jobs jobCounter] in *.

(** Case analysis on an innermost scrutinee of the hypotheses. *)
Ltac split_match :=
  match goal with
  | H : context [match ?x with _ => _ end] |- _ =>
    lazymatch x with
    | context [match _ with _ => _ end] => fail
    | _ => let E := fresh "E" in destruct x eqn:E
    end
  end.

Ltac settle :=
  match goal with
  | H : Returns _ _ = Returns _ _ |- _ => inversion H; subst; clear H
  | H : Blocks _ = Returns _ _ |- _ => discriminate H
  end.

Ltac known :=
  repeat match goal with
  | |- _ => progress cbn [heap jm trace next_loc jobs jobCounter negb]
  | H : _ !! _ = _ |- _ => rewrite H
  | H : live_process _ = _ |- _ => rewrite H
  | H : String.eqb _ _ = _ |- _ => rewrite H
  | H : os_signal _ _ _ _ = _ |- _ => rewrite H
  | H : os_wait _ _ _ = _ |- _ => rewrite H
  | H : Status ?j = ?c |- context [String.eqb (Status ?j) ?d] =>
    let b := eval vm_compute in (String.eqb c d) in
    replace (String.eqb (Status j) d) with b by (rewrite H; reflexivity)
  end; cbn [negb].

Section JobTable.

Variable os : OS.

Lemma BringToForeground_error jobID s s' e :
  BringToForeground os jobID s = Returns (Some e) s' ->
  same_table s s' /\
  (e = JobNotFound jobID \/ e = JobAlreadyDone jobID \/
   exists err, e = ResumeFailed err).
Proof.
  intros H. run. unfold same_table.
  repeat (split_match; cbn [heap jm trace] in * ); try settle; cbn; eauto 8.
Qed.

Lemma ResumeInBackground_error jobID s s' e :
  ResumeInBackground os jobID s = Returns (Some e) s' ->
  same_table s s' /\
  (e = JobNotFound jobID \/ e = JobAlreadyDone jobID \/
   e = JobNotStopped jobID \/ exists err, e = ResumeFailed err).
Proof.
  intros H. run. unfold same_table.
  repeat (split_match; cbn [heap jm trace] in * ); try settle; cbn; eauto 8.
Qed.

Lemma KillJob_error jobID s s' e :
  KillJob os jobID s = Returns (Some e) s' ->
  same_table s s' /\
  (e = JobNotFound jobID \/ e = JobAlreadyDone jobID \/
   exists err, e = KillFailed err).
Proof.
  intros H. run. unfold same_table.
  repeat (split_match; cbn [heap jm trace] in * ); try settle; cbn; eauto 8.
Qed.

Lemma status_eqb_ne (a b : string) : a <> b -> String.eqb a b = false.
Proof. apply String.eqb_neq. Qed.

(** *** KillJob, case by case *)

Lemma KillJob_not_found jobID s :
  jobs (jm s) !! jobID = None ->
  KillJob os jobID s = Returns (Some (JobNotFound jobID)) s.
Proof. intros H. run. now known. Qed.

Lemma KillJob_done jobID s job :
  jobs (jm s) !! jobID = Some job ->
  Status (heap s job) = JobStatusDone ->
  KillJob os jobID s = Returns (Some (JobAlreadyDone jobID)) s.
Proof. intros H1 H2. run. now known. Qed.

Lemma KillJob_delivered jobID s job c p :
  jobs (jm s) !! jobID = Some job ->
  Status (heap s job) <> JobStatusDone ->
  live_process (heap s job) = Some (c, p) ->
  os_signal os (trace s ++ [MsgTerminating (heap s job)]) p SIGKILL = None ->
  exists s1 t,
    KillJob os jobID s = Returns None s1 /\
    jm s1 = jm s /\
    heap s1 job = set_EndTime (Some t) (set_Status JobStatusDone (heap s job)) /\
    only_changed s s1 job /\
    appended s s1 [MsgTerminating (heap s job); EvSignal p SIGKILL None; EvNow t].
Proof.
  intros H1 H2%status_eqb_ne H3 H4. unfold MsgTerminating in *.
  do 2 eexists. split.
  - run. known. reflexivity.
  - unfold only_changed, appended; cbn. rewrite !Nat.eqb_refl.
    repeat split; [| now rewrite <- !app_assoc].
    intros l Hl%Nat.eqb_neq. now rewrite !Hl.
Qed.

Lemma KillJob_failed jobID s job c p err :
  jobs (jm s) !! jobID = Some job ->
  Status (heap s job) <> JobStatusDone ->
  live_process (heap s job) = Some (c, p) ->
  os_signal os (trace s ++ [MsgTerminating (heap s job)]) p SIGKILL = Some err ->
  exists s1,
    KillJob os jobID s = Returns (Some (KillFailed err)) s1 /\
    same_table s s1 /\
    appended s s1 [MsgTerminating (heap s job); EvSignal p SIGKILL (Some err)].
Proof.
  intros H1 H2%status_eqb_ne H3 H4. unfold MsgTerminating in *.
  eexists. split.
  - run. known. reflexivity.
  - unfold same_table, appended; cbn. now rewrite <- !app_assoc.
Qed.

Lemma KillJob_no_process jobID s job :
  jobs (jm s) !! jobID = Some job ->
  Status (heap s job) <> JobStatusDone ->
  live_process (heap s job) = None ->
  exists s1,
    KillJob os jobID s = Returns None s1 /\
    same_table s s1 /\
    appended s s1 [MsgTerminating (heap s job)].
Proof.
  intros H1 H2%status_eqb_ne H3. unfold MsgTerminating in *.
  eexists. split.
  - run. known. reflexivity.
  - now unfold same_table, appended; cbn.
Qed.

(** *** ResumeInBackground, case by case *)

Lemma ResumeInBackground_not_found jobID s :
  jobs (jm s) !! jobID = None ->
  ResumeInBackground os jobID s = Returns (Some (JobNotFound jobID)) s.
Proof. intros H. run. now known. Qed.

Lemma ResumeInBackground_done jobID s job :
  jobs (jm s) !! jobID = Some job ->
  Status (heap s job) = JobStatusDone ->
  ResumeInBackground os jobID s = Returns (Some (JobAlreadyDone jobID)) s.
Proof. intros H1 H2. run. now known. Qed.

Lemma ResumeInBackground_not_stopped jobID s job :
  jobs (jm s) !! jobID = Some job ->
  Status (heap s job) <> JobStatusDone ->
  Status (heap s job) <> JobStatusStopped ->
  ResumeInBackground os jobID s = Returns (Some (JobNotStopped jobID)) s.
Proof. intros H1 H2%status_eqb_ne H3%status_eqb_ne. run. now known. Qed.

Lemma ResumeInBackground_delivered jobID s job c p :
  jobs (jm s) !! jobID = Some job ->
  Status (heap s job) = JobStatusStopped ->
  live_process (heap s job) = Some (c, p) ->
  os_signal os (trace s ++ [MsgResuming (heap s job)]) p SIGCONT = None ->
  exists s1,
    ResumeInBackground os jobID s = Returns None s1 /\
    jm s1 = jm s /\
    heap s1 job = set_Background true (set_Status JobStatusRunning (heap s job)) /\
    only_changed s s1 job /\
    appended s s1 [MsgResuming (heap s job); EvSignal p SIGCONT None].
Proof.
  intros H1 H2 H3 H4. unfold MsgResuming in *.
  eexists. split.
  - run. known. reflexivity.
  - unfold only_changed, appended; cbn. rewrite !Nat.eqb_refl.
    repeat split; [| now rewrite <- !app_assoc].
    intros l Hl%Nat.eqb_neq. now rewrite !Hl.
Qed.

Lemma ResumeInBackground_failed jobID s job c p err :
  jobs (jm s) !! jobID = Some job ->
  Status (heap s job) = JobStatusStopped ->
  live_process (heap s job) = Some (c, p) ->
  os_signal os (trace s ++ [MsgResuming (heap s job)]) p SIGCONT = Some err ->
  exists s1,
    ResumeInBackground os jobID s = Returns (Some (ResumeFailed err)) s1 /\
    same_table s s1 /\
    appended s s1 [MsgResuming (heap s job); EvSignal p SIGCONT (Some err)].
Proof.
  intros H1 H2 H3 H4. unfold MsgResuming in *.
  eexists. split.
  - run. known. reflexivity.
  - unfold same_table, appended; cbn. now rewrite <- !app_assoc.
Qed.

Lemma ResumeInBackground_no_process jobID s job :
  jobs (jm s) !! jobID = Some job ->
  Status (heap s job) = JobStatusStopped ->
  live_process (heap s job) = None ->
  exists s1,
    ResumeInBackground os jobID s = Returns None s1 /\
    same_table s s1 /\
    appended s s1 [MsgResuming (heap s job)].
Proof.
  intros H1 H2 H3. unfold MsgResuming in *.
  eexists. split.
  - run. known. reflexivity.
  - now unfold same_table, appended; cbn.
Qed.

(** [ResumeInBackground] has no [Wait]: it returns from every state. *)
Lemma ResumeInBackground_returns jobID s :
  exists r s1, ResumeInBackground os jobID s = Returns r s1.
Proof.
  run. destruct (jobs (jm s) !! jobID) as [job|]; cbn; eauto.
  destruct (String.eqb (Status (heap s job)) JobStatusDone); eauto.
  destruct (String.eqb (Status (heap s job)) JobStatusStopped); cbn; eauto.
  destruct (live_process (heap s job)) as [[c p]|]; cbn; eauto.
  destruct (os_signal os _ p SIGCONT); eauto.
Qed.

(** *** BringToForeground, case by case *)

Lemma BringToForeground_not_found jobID s :
  jobs (jm s) !! jobID = None ->
  BringToForeground os jobID s = Returns (Some (JobNotFound jobID)) s.
Proof. intros H. run. now known. Qed.

Lemma BringToForeground_done jobID s job :
  jobs (jm s) !! jobID = Some job ->
  Status (heap s job) = JobStatusDone ->
  BringToForeground os jobID s = Returns (Some (JobAlreadyDone jobID)) s.
Proof. intros H1 H2. run. now known. Qed.

Lemma BringToForeground_no_process jobID s job :
  jobs (jm s) !! jobID = Some job ->
  Status (heap s job) <> JobStatusDone ->
  live_process (heap s job) = None ->
  exists s1,
    BringToForeground os jobID s = Returns None s1 /\
    heap s1 = heap s /\
    jobs (jm s1) = delete jobID (jobs (jm s)) /\
    jobCounter (jm s1) = jobCounter (jm s) /\
    appended s s1 [MsgBringing (heap s job)].
Proof.
  intros H1 H2%status_eqb_ne H3. unfold MsgBringing in *.
  eexists. split.
  - run. known. reflexivity.
  - now unfold appended; cbn.
Qed.

Lemma BringToForeground_failed jobID s job c p err :
  jobs (jm s) !! jobID = Some job ->
  Status (heap s job) = JobStatusStopped ->
  live_process (heap s job) = Some (c, p) ->
  os_signal os (trace s ++ [MsgBringing (heap s job)]) p SIGCONT = Some err ->
  exists s1,
    BringToForeground os jobID s = Returns (Some (ResumeFailed err)) s1 /\
    same_table s s1 /\
    appended s s1 [MsgBringing (heap s job); EvSignal p SIGCONT (Some err)].
Proof.
  intros H1 H2 H3 H4. unfold MsgBringing in *.
  eexists. split.
  - run. known. reflexivity.
  - unfold same_table, appended; cbn. now rewrite <- !app_assoc.
Qed.

Lemma BringToForeground_reaches_wait jobID s job c p :
  jobs (jm s) !! jobID = Some job ->
  Status (heap s job) <> JobStatusDone ->
  live_process (heap s job) = Some (c, p) ->
  (Status (heap s job) = JobStatusStopped ->
   os_signal os (trace s ++ [MsgBringing (heap s job)]) p SIGCONT = None) ->
  exists s1,
    heap s1 job = set_Background false (set_Status JobStatusRunning (heap s job)) /\
    only_changed s s1 job /\
    jm s1 = jm s /\
    appended s s1 (MsgBringing (heap s job) :: resume_events (heap s job) p) /\
    match os_wait os (trace s1) c with
    | None => BringToForeground os jobID s = Blocks s1
    | Some w =>
      exists s2 t,
        BringToForeground os jobID s = Returns None s2 /\
        heap s2 job = set_EndTime (Some t) (set_Status JobStatusDone (heap s1 job)) /\
        only_changed s s2 job /\
        jobs (jm s2) = delete jobID (jobs (jm s)) /\
        jobCounter (jm s2) = jobCounter (jm s) /\
        appended s1 s2 (EvWait c w :: exit_events (heap s1 job) w ++ [EvNow t])
    end.
Proof.
  intros H1 H2%status_eqb_ne H3 H4. unfold MsgBringing, resume_events in *.
  assert (Hpre : exists s1,
    heap s1 job = set_Background false (set_Status JobStatusRunning (heap s job)) /\
    only_changed s s1 job /\ jm s1 = jm s /\
    appended s s1 (MsgBringing (heap s job) :: resume_events (heap s job) p) /\
    BringToForeground os jobID s =
    (werr <- wait os c ;;
     (match werr with
      | Some err =>
        j' <- load job ;;
        Printf "Job [%d] exited with error: %v\n" [AInt (ID j'); AErr err]
      | None => ret tt
      end) ;;;
     modify job (set_Status JobStatusDone) ;;;
     endTime <- now os ;;
     modify job (set_EndTime (Some endTime)) ;;;
     delete_job jobID ;;;
     ret None) s1).
  { unfold MsgBringing, resume_events, only_changed, appended.
    destruct (String.eqb (Status (heap s job)) JobStatusStopped) eqn:Hst.
    - apply String.eqb_eq in Hst. specialize (H4 Hst).
      eexists. split; [|split; [|split; [|split]]]; cycle 4.
      + unfold BringToForeground, GetJob, bind at 1 2 3 4 5 6 7, get_jobs,
          ret at 1 2 3, load at 1, Printf at 1, emit at 1, signal, modify at 1 2.
        known. cbn. reflexivity.
      + cbn. now rewrite !Nat.eqb_refl.
      + cbn. intros l Hl%Nat.eqb_neq. now rewrite !Hl.
      + reflexivity.
      + cbn. now rewrite <- !app_assoc.
    - eexists. split; [|split; [|split; [|split]]]; cycle 4.
      + unfold BringToForeground, GetJob, bind at 1 2 3 4 5 6 7, get_jobs,
          ret at 1 2 3, load at 1, Printf at 1, emit at 1, modify at 1 2.
        known. cbn. reflexivity.
      + cbn. now rewrite !Nat.eqb_refl.
      + cbn. intros l Hl%Nat.eqb_neq. now rewrite !Hl.
      + reflexivity.
      + reflexivity. }
  destruct Hpre as (s1 & Hj & Hoth & Hjm & Htr & Hrun).
  exists s1. repeat (split; [assumption|]).
  rewrite Hrun. clear Hrun.
  destruct (os_wait os (trace s1) c) as [w|] eqn:Hw.
  2: { run. now rewrite Hw. }
  destruct w as [err|]; do 2 eexists.
  - split; [run; rewrite Hw; reflexivity|].
    unfold only_changed, appended in *; cbn.
    rewrite !Nat.eqb_refl, Hjm, <- !app_assoc. repeat split.
    intros l Hl. rewrite <- Hoth by assumption.
    apply Nat.eqb_neq in Hl. now rewrite !Hl.
  - split; [run; rewrite Hw; reflexivity|].
    unfold only_changed, appended in *; cbn.
    rewrite !Nat.eqb_refl, Hjm, <- !app_assoc. repeat split.
    intros l Hl. rewrite <- Hoth by assumption.
    apply Nat.eqb_neq in Hl. now rewrite !Hl.
Qed.

Lemma GetJob_run jobID s :
  GetJob jobID s =
  Returns (match jobs (jm s) !! jobID with
           | Some job => inl job
           | None => inr (JobNotFound jobID)
           end) s.
Proof. run. now destruct (jobs (jm s) !! jobID). Qed.

(** [list()] after a deletion: the records of every other id. *)
Lemma listed_after_delete (m : gmap Z loc) (jobID : Z) (l : loc) :
  l ∈ map snd (map_to_list (delete jobID m)) <->
  exists id, id <> jobID /\ m !! id = Some l.
Proof.
  rewrite list_elem_of_fmap. split.
  - intros [[id l'] [-> Hin]]. apply elem_of_map_to_list in Hin.
    apply lookup_delete_Some in Hin as [Hne Hl]. exists id. now split.
  - intros (id & Hne & Hl). exists (id, l). split; [reflexivity|].
    apply elem_of_map_to_list. apply lookup_delete_Some. now split.
Qed.

(** C1 (as amended).  For a tracked job that is not [Done] and holds a
    started process, [BringToForeground] prints its notice and, when the
    job is [Stopped], sends the continue signal first.  When that delivery
    fails the call returns the failure and the table is unchanged.
    Otherwise the job is set to [Running] in the foreground and the caller
    sits in [Wait]: for ever if the process never exits; and once it exits
    the job is [Done] with its [EndTime] set and its id is deleted from the
    table, so that [GetJob] no longer finds it and [GetAllJobs] lists only
    the records of the other ids. *)
Theorem foreground_runs_job_to_completion jobID s job c p :
  jobs (jm s) !! jobID = Some job ->
  Status (heap s job) <> JobStatusDone ->
  live_process (heap s job) = Some (c, p) ->
  let j := heap s job in
  match (if String.eqb (Status j) JobStatusStopped
         then os_signal os (trace s ++ [MsgBringing j]) p SIGCONT
         else None) with
  | Some err =>
    exists s1,
      BringToForeground os jobID s = Returns (Some (ResumeFailed err)) s1 /\
      same_table s s1 /\
      appended s s1 [MsgBringing j; EvSignal p SIGCONT (Some err)]
  | None =>
    exists s1,
      Status (heap s1 job) = JobStatusRunning /\
      Background (heap s1 job) = false /\
      only_changed s s1 job /\
      jm s1 = jm s /\
      appended s s1 (MsgBringing j :: resume_events j p) /\
      match os_wait os (trace s1) c with
      | None => BringToForeground os jobID s = Blocks s1
      | Some w =>
        exists s2 t,
          BringToForeground os jobID s = Returns None s2 /\
          Status (heap s2 job) = JobStatusDone /\
          EndTime (heap s2 job) = Some t /\
          Background (heap s2 job) = false /\
          only_changed s s2 job /\
          jobs (jm s2) = delete jobID (jobs (jm s)) /\
          jobCounter (jm s2) = jobCounter (jm s) /\
          appended s1 s2 (EvWait c w :: exit_events (heap s1 job) w ++ [EvNow t]) /\
          GetJob jobID s2 = Returns (inr (JobNotFound jobID)) s2 /\
          exists listed,
            GetAllJobs s2 = Returns listed s2 /\
            forall l, l ∈ listed <-> exists id, id <> jobID /\ jobs (jm s) !! id = Some l
      end
  end.
Proof.
  intros Hjob Hnd Hlive j.
  destruct (String.eqb (Status j) JobStatusStopped) eqn:Hst.
  - apply String.eqb_eq in Hst.
    destruct (os_signal os (trace s ++ [MsgBringing j]) p SIGCONT) as [err|] eqn:Hsig.
    + now apply (BringToForeground_failed jobID s job c p err).
    + destruct (BringToForeground_reaches_wait jobID s job c p Hjob Hnd Hlive)
        as (s1 & Hj1 & Hoth & Hjm & Htr & Hrest); [now intros _|].
      exists s1. rewrite Hj1. repeat (split; [easy|]).
      destruct (os_wait os (trace s1) c) as [w|]; [|assumption].
      destruct Hrest as (s2 & t & Hrun & Hj2 & Hoth2 & Hdel & Hcnt & Htr2).
      exists s2, t. rewrite Hj2, Hj1. repeat (split; [easy|]).
      rewrite <- Hj1. split; [assumption|]. split.
      * rewrite GetJob_run, Hdel, lookup_delete_eq. reflexivity.
      * eexists. split; [reflexivity|]. cbn. rewrite Hdel.
        apply listed_after_delete.
  - assert (Hns : Status (heap s job) = JobStatusStopped -> False).
    { intros E. apply String.eqb_neq in Hst. now apply Hst. }
    destruct (BringToForeground_reaches_wait jobID s job c p Hjob Hnd Hlive)
      as (s1 & Hj1 & Hoth & Hjm & Htr & Hrest); [intros E; now destruct (Hns E)|].
    exists s1. rewrite Hj1. repeat (split; [easy|]).
    destruct (os_wait os (trace s1) c) as [w|]; [|assumption].
    destruct Hrest as (s2 & t & Hrun & Hj2 & Hoth2 & Hdel & Hcnt & Htr2).
    exists s2, t. rewrite Hj2, Hj1. repeat (split; [easy|]).
    rewrite <- Hj1. split; [assumption|]. split.
    * rewrite GetJob_run, Hdel, lookup_delete_eq. reflexivity.
    * eexists. split; [reflexivity|]. cbn. rewrite Hdel.
      apply listed_after_delete.
Qed.

(** C2 (as amended).  For a tracked job with status [Running] that holds
    a started process, [KillJob] sends the kill signal.  When it is
    delivered the job becomes [Done] with its [EndTime] set, it stays in
    the table, and a second [KillJob] on the same id returns the
    already-completed error and changes nothing.  When the delivery fails
    the call returns that failure and the table is unchanged. *)
Theorem kill_marks_done_then_already_done jobID s job c p :
  jobs (jm s) !! jobID = Some job ->
  Status (heap s job) = JobStatusRunning ->
  live_process (heap s job) = Some (c, p) ->
  let j := heap s job in
  match os_signal os (trace s ++ [MsgTerminating j]) p SIGKILL with
  | None =>
    exists s1 t,
      KillJob os jobID s = Returns None s1 /\
      jm s1 = jm s /\
      Status (heap s1 job) = JobStatusDone /\
      EndTime (heap s1 job) = Some t /\
      heap s1 job = set_EndTime (Some t) (set_Status JobStatusDone j) /\
      only_changed s s1 job /\
      appended s s1 [MsgTerminating j; EvSignal p SIGKILL None; EvNow t] /\
      KillJob os jobID s1 = Returns (Some (JobAlreadyDone jobID)) s1
  | Some err =>
    exists s1,
      KillJob os jobID s = Returns (Some (KillFailed err)) s1 /\
      same_table s s1 /\
      appended s s1 [MsgTerminating j; EvSignal p SIGKILL (Some err)]
  end.
Proof.
  intros Hjob Hrun Hlive j.
  assert (Hnd : Status (heap s job) <> JobStatusDone) by now rewrite Hrun.
  destruct (os_signal os (trace s ++ [MsgTerminating j]) p SIGKILL)
    as [err|] eqn:Hsig.
  - now apply (KillJob_failed jobID s job c p err).
  - destruct (KillJob_delivered jobID s job c p Hjob Hnd Hlive Hsig)
      as (s1 & t & Hk & Hjm & Hj1 & Hoth & Htr).
    exists s1, t. rewrite Hj1. repeat (split; [easy|]).
    apply (KillJob_done jobID s1 job).
    + now rewrite Hjm.
    + now rewrite Hj1.
Qed.

(** C3.  Whenever [BringToForeground], [ResumeInBackground] or [KillJob]
    returns an error, the error is the not-found, the already-completed,
    the not-stopped or a signal-delivery error, and the job table is
    exactly as before: every job record and the manager are unchanged. *)
Theorem job_control_error_leaves_table_unchanged jobID s s' e :
  BringToForeground os jobID s = Returns (Some e) s' \/
  ResumeInBackground os jobID s = Returns (Some e) s' \/
  KillJob os jobID s = Returns (Some e) s' ->
  (heap s' = heap s /\ jm s' = jm s /\ next_loc s' = next_loc s) /\
  (e = JobNotFound jobID \/ e = JobAlreadyDone jobID \/
   e = JobNotStopped jobID \/
   exists err, e = ResumeFailed err \/ e = KillFailed err).
Proof.
  intros [H | [H | H]].
  - assert (Hn : next_loc s' = next_loc s).
    { revert H. run. intros H.
      repeat (split_match; cbn [next_loc] in * ); try settle; reflexivity. }
    apply BringToForeground_error in H as [[Hh Hj] He]. repeat split; try easy.
    destruct He as [-> | [-> | [err ->]]]; eauto 6.
  - assert (Hn : next_loc s' = next_loc s).
    { revert H. run. intros H.
      repeat (split_match; cbn [next_loc] in * ); try settle; reflexivity. }
    apply ResumeInBackground_error in H as [[Hh Hj] He]. repeat split; try easy.
    destruct He as [-> | [-> | [-> | [err ->]]]]; eauto 6.
  - assert (Hn : next_loc s' = next_loc s).
    { revert H. run. intros H.
      repeat (split_match; cbn [next_loc] in * ); try settle; reflexivity. }
    apply KillJob_error in H as [[Hh Hj] He]. repeat split; try easy.
    destruct He as [-> | [-> | [err ->]]]; eauto 6.
Qed.

(** C4 (as amended).  [ResumeInBackground] never blocks.  It fails with
    the not-found error when the id is absent, with the already-completed
    error when the job is [Done], and with the not-stopped error when the
    status is neither [Done] nor [Stopped]; none of these changes the
    state.  On a [Stopped] job that holds a started process it sends the
    continue signal; when the signal is delivered the job becomes
    [Running] with [Background] set and stays in the table, and when the
    delivery fails the failure is returned and the table is unchanged.  A
    [Stopped] job without a started process is left as it is. *)
Theorem resume_in_background_cases jobID s :
  (exists r s1, ResumeInBackground os jobID s = Returns r s1) /\
  match jobs (jm s) !! jobID with
  | None =>
    ResumeInBackground os jobID s = Returns (Some (JobNotFound jobID)) s
  | Some job =>
    let j := heap s job in
    (Status j = JobStatusDone ->
     ResumeInBackground os jobID s = Returns (Some (JobAlreadyDone jobID)) s) /\
    (Status j <> JobStatusDone -> Status j <> JobStatusStopped ->
     ResumeInBackground os jobID s = Returns (Some (JobNotStopped jobID)) s) /\
    (Status j = JobStatusStopped ->
     match live_process j with
     | Some (c, p) =>
       match os_signal os (trace s ++ [MsgResuming j]) p SIGCONT with
       | None =>
         exists s1,
           ResumeInBackground os jobID s = Returns None s1 /\
           jm s1 = jm s /\
           Status (heap s1 job) = JobStatusRunning /\
           Background (heap s1 job) = true /\
           heap s1 job = set_Background true (set_Status JobStatusRunning j) /\
           only_changed s s1 job /\
           appended s s1 [MsgResuming j; EvSignal p SIGCONT None]
       | Some err =>
         exists s1,
           ResumeInBackground os jobID s = Returns (Some (ResumeFailed err)) s1 /\
           same_table s s1 /\
           appended s s1 [MsgResuming j; EvSignal p SIGCONT (Some err)]
       end
     | None =>
       exists s1,
         ResumeInBackground os jobID s = Returns None s1 /\
         same_table s s1 /\
         appended s s1 [MsgResuming j]
     end)
  end.
Proof.
  split; [apply ResumeInBackground_returns|].
  destruct (jobs (jm s) !! jobID) as [job|] eqn:Hjob.
  2: now apply ResumeInBackground_not_found.
  cbv zeta. split; [|split].
  - now apply ResumeInBackground_done.
  - now apply ResumeInBackground_not_stopped.
  - intros Hst. destruct (live_process (heap s job)) as [[c p]|] eqn:Hlive.
    + destruct (os_signal os (trace s ++ [MsgResuming (heap s job)]) p SIGCONT)
        as [err|] eqn:Hsig.
      * now apply (ResumeInBackground_failed jobID s job c p err).
      * destruct (ResumeInBackground_delivered jobID s job c p Hjob Hst Hlive Hsig)
          as (s1 & Hr & Hjm & Hj1 & Hoth & Htr).
        exists s1. rewrite Hj1. now repeat (split; [easy|]).
    + now apply ResumeInBackground_no_process.
Qed.

(** *** CleanupCompletedJobs *)

Lemma cleanup_range_run entries s :
  cleanup_range entries s =
  Returns tt (mkState (heap s) (next_loc s)
                      (mkJM (swept (heap s) (jobs (jm s)) entries)
                            (jobCounter (jm s)))
                      (trace s)).
Proof.
  revert s. induction entries as [|[id job] rest IH]; intros s.
  - destruct s as [h n [js k] tr]. reflexivity.
  - cbn [cleanup_range]. unfold bind at 1 2, load. cbv beta.
    unfold swept, done_entry. cbn [foldl fst snd].
    destruct (String.eqb (Status (heap s job)) JobStatusDone);
      unfold delete_job, ret; rewrite IH; reflexivity.
Qed.

Lemma swept_lookup h entries m id :
  swept h m entries !! id =
  if decide (Exists (fun e => e.1 = id /\ done_entry h e = true) entries)
  then None else m !! id.
Proof.
  unfold swept. revert m. induction entries as [|e rest IH]; intros m; cbn [foldl].
  - destruct (decide _) as [H|H]; [inversion H | reflexivity].
  - rewrite IH. destruct (done_entry h e) eqn:Hd.
    + destruct (decide (Exists _ rest)) as [H|H].
      * rewrite decide_True by now right. reflexivity.
      * destruct (decide (e.1 = id)) as [He|He].
        -- rewrite decide_True by (left; now split). subst. apply lookup_delete_eq.
        -- rewrite decide_False.
           ++ now apply lookup_delete_ne.
           ++ intros Hx. inversion Hx; subst; tauto.
    + destruct (decide (Exists _ rest)) as [H|H].
      * rewrite decide_True by now right. reflexivity.
      * rewrite decide_False; [reflexivity|].
        intros Hx. inversion Hx; subst; [|tauto].
        destruct H1 as [_ H1]. congruence.
Qed.

(** Visiting every entry of the table once, in any order, leaves the
    entries that are not [Done]. *)
Lemma swept_all h m entries id job :
  entries ≡ₚ map_to_list m ->
  swept h m entries !! id = Some job <->
  m !! id = Some job /\ Status (h job) <> JobStatusDone.
Proof.
  intros Hperm. rewrite swept_lookup.
  destruct (decide _) as [Hex|Hex].
  - apply Exists_exists in Hex as ([id' job'] & Hin & Hid & Hd).
    cbn in Hid. subst id'. unfold done_entry in Hd. cbn in Hd.
    apply String.eqb_eq in Hd.
    rewrite Hperm in Hin. apply elem_of_map_to_list in Hin.
    split; [discriminate|]. intros [Hm Hs]. congruence.
  - split; [|tauto]. intros Hm. split; [assumption|].
    intros Hs. apply Hex. apply Exists_exists. exists (id, job).
    split; [| split; [reflexivity|]].
    + rewrite Hperm. now apply elem_of_map_to_list.
    + unfold done_entry. cbn. now apply String.eqb_eq.
Qed.

Lemma StronglySorted_filter {A} (R : relation A) (P : A -> Prop)
    `{!forall x, Decision (P x)} (l : list A) :
  StronglySorted R l -> StronglySorted R (filter P l).
Proof.
  induction 1 as [|x l Hl IH Hx]; [constructor|].
  rewrite filter_cons. destruct (decide (P x)); [|assumption].
  constructor; [assumption|]. rewrite Forall_forall in *.
  intros y [_ Hy]%list_elem_of_filter. auto.
Qed.

Lemma job_ids_elem (m : gmap Z loc) (id : Z) :
  id ∈ job_ids m <-> is_Some (m !! id).
Proof.
  unfold job_ids. rewrite merge_sort_Permutation, list_elem_of_fmap. split.
  - intros [[id' job] [-> Hin]]. apply elem_of_map_to_list in Hin. now exists job.
  - intros [job Hm]. exists (id, job). split; [reflexivity|].
    now apply elem_of_map_to_list.
Qed.

Lemma job_ids_sorted (m : gmap Z loc) : StronglySorted Z.le (job_ids m).
Proof. apply StronglySorted_merge_sort; apply _. Qed.

Lemma job_ids_NoDup (m : gmap Z loc) : NoDup (job_ids m).
Proof.
  unfold job_ids. rewrite merge_sort_Permutation. apply NoDup_fst_map_to_list.
Qed.

(** A table that keeps part of the entries of another lists its ids in
    the same relative order. *)
Lemma job_ids_sub (m m' : gmap Z loc) :
  (forall id, is_Some (m' !! id) -> is_Some (m !! id)) ->
  job_ids m' = filter (fun id => is_Some (m' !! id)) (job_ids m).
Proof.
  intros Hsub. apply (StronglySorted_unique Z.le).
  - apply job_ids_sorted.
  - apply StronglySorted_filter, job_ids_sorted.
  - apply NoDup_Permutation.
    + apply job_ids_NoDup.
    + apply NoDup_filter, job_ids_NoDup.
    + intros id. rewrite list_elem_of_filter, !job_ids_elem.
      split; [intros H; split; [assumption | now apply Hsub] | tauto].
Qed.

(** C5.  [CleanupCompletedJobs] returns with a table that holds an id
    exactly when the table held it before with a job that is not [Done],
    and then with the same record; no job record is changed, and the ids
    that remain are in the same relative order as before.  The result does
    not depend on the order in which the iteration visits the table. *)
Theorem cleanup_removes_exactly_done s :
  exists s',
    CleanupCompletedJobs s = Returns tt s' /\
    (forall order, order ≡ₚ map_to_list (jobs (jm s)) ->
                   cleanup_range order s = Returns tt s') /\
    heap s' = heap s /\
    jobCounter (jm s') = jobCounter (jm s) /\
    trace s' = trace s /\
    (forall id job,
       jobs (jm s') !! id = Some job <->
       jobs (jm s) !! id = Some job /\ Status (heap s job) <> JobStatusDone) /\
    (forall id job,
       jobs (jm s) !! id = Some job -> Status (heap s job) = JobStatusDone ->
       jobs (jm s') !! id = None) /\
    job_ids (jobs (jm s')) =
    filter (fun id => is_Some (jobs (jm s') !! id)) (job_ids (jobs (jm s))).
Proof.
  assert (Hany : forall order, order ≡ₚ map_to_list (jobs (jm s)) ->
            swept (heap s) (jobs (jm s)) order =
            swept (heap s) (jobs (jm s)) (map_to_list (jobs (jm s)))).
  { intros order Hp. apply map_eq. intros id. apply option_eq. intros job.
    now rewrite !swept_all. }
  eexists. split; [|split; [|split; [|split; [|split; [|split; [|split]]]]]].
  - unfold CleanupCompletedJobs, bind, get_jobs. apply cleanup_range_run.
  - intros order Hp. rewrite cleanup_range_run, (Hany order Hp). reflexivity.
  - reflexivity.
  - reflexivity.
  - reflexivity.
  - intros id job. cbn. now apply swept_all.
  - intros id job Hm Hs. cbn.
    destruct (swept _ _ _ !! id) as [job'|] eqn:Hl; [|reflexivity].
    apply swept_all in Hl as [Hm' Hs']; [|reflexivity]. congruence.
  - cbn. apply job_ids_sub. intros id [job Hl].
    apply swept_all in Hl as [Hm _]; [|reflexivity]. now exists job.
Qed.

End JobTable.

(** C1, an instance: a stopped job brought to the foreground on a system
    that delivers the signal and where the process exits. *)
Lemma foreground_runs_job_to_completion_witness :
  exists s2,
    BringToForeground os_fair 1 (one_job JobStatusStopped (Some sleep_cmd)) =
      Returns None s2 /\
    Status (heap s2 0%nat) = JobStatusDone /\
    jobs (jm s2) !! 1 = None.
Proof.
  pose proof (foreground_runs_job_to_completion os_fair 1
                (one_job JobStatusStopped (Some sleep_cmd)) 0%nat
                sleep_cmd sleep_process) as H.
  specialize (H eq_refl ltac:(discriminate) eq_refl).
  destruct H as (s1 & _ & _ & _ & _ & Htr & H).
  rewrite Htr in H.
  destruct H as (s2 & t & Hrun & Hst & _ & _ & _ & Hdel & _).
  exists s2. split; [exact Hrun|]. split; [exact Hst|].
  rewrite Hdel. apply lookup_delete_eq.
Defined.

(** C1 as stated fails: when the continue signal is refused the call
    returns an error and the stopped job stays in the table as it was; and
    a job without a started process is dropped from the table without a
    signal, a wait or a change of its status. *)
Lemma foreground_undelivered_or_unstarted :
  (let s := one_job JobStatusStopped (Some sleep_cmd) in
   jobs (jm s) !! 1 = Some 0%nat /\
   Status (heap s 0%nat) <> JobStatusDone /\
   exists e s',
     BringToForeground os_deny 1 s = Returns (Some e) s' /\
     jobs (jm s') !! 1 = Some 0%nat /\
     Status (heap s' 0%nat) = JobStatusStopped /\
     EndTime (heap s' 0%nat) = None) /\
  (let s := one_job JobStatusRunning None in
   jobs (jm s) !! 1 = Some 0%nat /\
   Status (heap s 0%nat) <> JobStatusDone /\
   exists s',
     BringToForeground os_fair 1 s = Returns None s' /\
     Status (heap s' 0%nat) = JobStatusRunning /\
     EndTime (heap s' 0%nat) = None /\
     trace s' = [MsgBringing (sleep_job JobStatusRunning None)]).
Proof.
  split; cbv zeta.
  - split; [reflexivity|]. split; [discriminate|].
    do 2 eexists. split; [reflexivity|]. repeat split.
  - split; [reflexivity|]. split; [discriminate|].
    eexists. split; [reflexivity|]. repeat split.
Qed.

(** C2, an instance: a running job killed twice on a system that
    delivers the signal. *)
Lemma kill_marks_done_then_already_done_witness :
  exists s1,
    KillJob os_fair 1 (one_job JobStatusRunning (Some sleep_cmd)) = Returns None s1 /\
    Status (heap s1 0%nat) = JobStatusDone /\
    KillJob os_fair 1 s1 = Returns (Some (JobAlreadyDone 1)) s1.
Proof.
  pose proof (kill_marks_done_then_already_done os_fair 1
                (one_job JobStatusRunning (Some sleep_cmd)) 0%nat
                sleep_cmd sleep_process eq_refl eq_refl eq_refl) as H.
  destruct H as (s1 & t & Hrun & _ & Hst & _ & _ & _ & _ & Hagain).
  exists s1. split; [exact Hrun|]. split; [exact Hst | exact Hagain].
Defined.

(** C2 as stated fails: when the kill signal is refused the running job
    is not marked [Done], its [EndTime] stays unset, and the second
    [KillJob] does not return the already-completed error. *)
Lemma kill_undelivered_stays_running :
  let s := one_job JobStatusRunning (Some sleep_cmd) in
  jobs (jm s) !! 1 = Some 0%nat /\
  Status (heap s 0%nat) = JobStatusRunning /\
  exists e s1,
    KillJob os_deny 1 s = Returns (Some e) s1 /\
    Status (heap s1 0%nat) = JobStatusRunning /\
    EndTime (heap s1 0%nat) = None /\
    KillJob os_deny 1 s1 <> Returns (Some (JobAlreadyDone 1)) s1.
Proof.
  cbv zeta. split; [reflexivity|]. split; [reflexivity|].
  do 2 eexists. split; [reflexivity|]. repeat split. discriminate.
Qed.

(** C3, an instance: a refused kill signal. *)
Lemma job_control_error_leaves_table_unchanged_witness :
  exists e s',
    KillJob os_deny 1 (one_job JobStatusRunning (Some sleep_cmd)) = Returns (Some e) s' /\
    heap s' = heap (one_job JobStatusRunning (Some sleep_cmd)) /\
    jm s' = jm (one_job JobStatusRunning (Some sleep_cmd)).
Proof.
  do 2 eexists. split; [reflexivity|].
  pose proof (job_control_error_leaves_table_unchanged os_deny 1
                (one_job JobStatusRunning (Some sleep_cmd)) _ _
                (or_intror (or_intror eq_refl))) as [(Hh & Hj & _) _].
  split; [exact Hh | exact Hj].
Defined.

(** C4, an instance: a stopped job resumed on a system that delivers the
    signal. *)
Lemma resume_in_background_cases_witness :
  exists s1,
    ResumeInBackground os_fair 1 (one_job JobStatusStopped (Some sleep_cmd)) =
      Returns None s1 /\
    Status (heap s1 0%nat) = JobStatusRunning /\
    Background (heap s1 0%nat) = true /\
    jobs (jm s1) !! 1 = Some 0%nat.
Proof.
  pose proof (resume_in_background_cases os_fair 1
                (one_job JobStatusStopped (Some sleep_cmd))) as [_ H].
  match type of H with
  | match ?x with _ => _ end =>
    assert (E : x = Some 0%nat) by reflexivity; rewrite E in H; clear E
  end.
  destruct H as (_ & _ & H). specialize (H eq_refl).
  destruct H as (s1 & Hrun & Hjm & Hst & Hbg & _).
  exists s1. split; [exact Hrun|]. split; [exact Hst|]. split; [exact Hbg|].
  rewrite Hjm. reflexivity.
Defined.

(** C4 as stated fails: when the continue signal is refused the stopped
    job stays [Stopped]; and a stopped job without a started process
    gets no signal and stays [Stopped] although the call returns no
    error. *)
Lemma resume_undelivered_or_unstarted :
  (let s := one_job JobStatusStopped (Some sleep_cmd) in
   jobs (jm s) !! 1 = Some 0%nat /\
   Status (heap s 0%nat) = JobStatusStopped /\
   exists e s',
     ResumeInBackground os_deny 1 s = Returns (Some e) s' /\
     Status (heap s' 0%nat) = JobStatusStopped) /\
  (let s := one_job JobStatusStopped None in
   jobs (jm s) !! 1 = Some 0%nat /\
   Status (heap s 0%nat) = JobStatusStopped /\
   exists s',
     ResumeInBackground os_fair 1 s = Returns None s' /\
     Status (heap s' 0%nat) = JobStatusStopped /\
     trace s' = [MsgResuming (sleep_job JobStatusStopped None)]).
Proof.
  split; cbv zeta.
  - split; [reflexivity|]. split; [reflexivity|].
    do 2 eexists. split; [reflexivity|]. reflexivity.
  - split; [reflexivity|]. split; [reflexivity|].
    eexists. split; [reflexivity|]. split; reflexivity.
Qed.

(** C5, an instance: of a [Done] job [1] and a [Running] job [2] the
    second remains, also when the iteration visits the table in another order. *)
Lemma cleanup_removes_exactly_done_witness :
  exists s',
    CleanupCompletedJobs two_jobs = Returns tt s' /\
    cleanup_range [(1, 0%nat); (2, 1%nat)] two_jobs = Returns tt s' /\
    jobs (jm s') !! 1 = None /\
    jobs (jm s') !! 2 = Some 1%nat.
Proof.
  destruct (cleanup_removes_exactly_done two_jobs)
    as (s' & Hrun & Hany & _ & _ & _ & Hkeep & Hdrop & _).
  exists s'. split; [exact Hrun|]. split; [|split].
  - apply Hany. change (map_to_list (jobs (jm two_jobs)))
      with [(2, 1%nat); (1, 0%nat)]. apply perm_swap.
  - apply (Hdrop 1 0%nat); reflexivity.
  - apply Hkeep. split; [reflexivity | discriminate].
Defined.

(** ** The built-ins fg and bg, and the dispatcher *)

Section Dispatch.

Variable os : OS.
Variable TrimSpace : string -> string.
Variable Atoi : string -> option Z.
Variable other_builtin : string -> list string -> M (option error).

Lemma GetAllJobs_empty s :
  jobs (jm s) = ∅ -> GetAllJobs s = Returns [] s.
Proof.
  intros H. unfold GetAllJobs, bind, get_jobs, ret. now rewrite H, map_to_list_empty.
Qed.

Lemma handleFG_empty_table args s :
  jobs (jm s) = ∅ ->
  exists e, handleFG os Atoi args s = Returns (Some e) s /\
            forall n, e <> JobNotFound n.
Proof.
  intros H. unfold handleFG.
  destruct (length args <? 2)%nat; [eexists; split; [reflexivity | discriminate]|].
  destruct (2 <? length args)%nat; [eexists; split; [reflexivity | discriminate]|].
  destruct (String.eqb (nth 1 args "") ""); [eexists; split; [reflexivity | discriminate]|].
  destruct (Atoi (nth 1 args "")) as [n|]; [|eexists; split; [reflexivity | discriminate]].
  destruct (n <=? 0); [eexists; split; [reflexivity | discriminate]|].
  unfold bind. rewrite (GetAllJobs_empty s H). cbn.
  eexists; split; [reflexivity | discriminate].
Qed.

Lemma handleBG_empty_table args s :
  jobs (jm s) = ∅ ->
  exists e, handleBG os Atoi args s = Returns (Some e) s /\
            forall n, e <> JobNotFound n.
Proof.
  intros H. unfold handleBG.
  destruct (length args <? 2)%nat; [eexists; split; [reflexivity | discriminate]|].
  destruct (2 <? length args)%nat; [eexists; split; [reflexivity | discriminate]|].
  destruct (String.eqb (nth 1 args "") ""); [eexists; split; [reflexivity | discriminate]|].
  destruct (Atoi (nth 1 args "")) as [n|]; [|eexists; split; [reflexivity | discriminate]].
  destruct (n <=? 0); [eexists; split; [reflexivity | discriminate]|].
  unfold bind. rewrite (GetAllJobs_empty s H). cbn.
  eexists; split; [reflexivity | discriminate].
Qed.

(** C10.  On an empty job table [fg] and [bg] return, for every argument
    list, an error that is not the not-found error, and leave the state
    as it is; when the argument is a job id (one non-empty operand that
    [Atoi] reads as a positive number) the error is the no-jobs error of
    the built-in.  So a not-found error from [fg] or [bg] shows that the
    table holds a job. *)
Theorem fg_bg_empty_table_no_jobs args s :
  jobs (jm s) = ∅ ->
  (exists e, handleFG os Atoi args s = Returns (Some e) s /\
             forall n, e <> JobNotFound n) /\
  (exists e, handleBG os Atoi args s = Returns (Some e) s /\
             forall n, e <> JobNotFound n) /\
  (forall name jobIDStr jobID,
     args = [name; jobIDStr] -> jobIDStr <> "" ->
     Atoi jobIDStr = Some jobID -> 0 < jobID ->
     handleFG os Atoi args s = Returns (Some FgNoJobs) s /\
     handleBG os Atoi args s = Returns (Some BgNoJobs) s).
Proof.
  intros H. split; [now apply handleFG_empty_table|].
  split; [now apply handleBG_empty_table|].
  intros name jobIDStr jobID -> Hne%String.eqb_neq Ha Hpos.
  unfold handleFG, handleBG. cbn [length nth Nat.ltb Nat.leb].
  rewrite Hne, Ha. replace (jobID <=? 0) with false by (symmetry; apply Z.leb_gt; lia).
  unfold bind. rewrite (GetAllJobs_empty s H). cbn. now split.
Qed.

(** C9.  A line that parses to a command which passes validation and
    whose name is not a built-in makes [processInput] look the name up on
    the path and return a command-not-found error, the plain one when the
    lookup fails and the only-built-ins one when it succeeds; the lookup
    is the only event, and the job records, the table and its counter are
    unchanged. *)
Theorem non_builtin_is_not_found input parsed s :
  Parse TrimSpace input = Some parsed ->
  ValidateCommand (Some parsed) = None ->
  IsBuiltinCommand (parsed.Command parsed) = false ->
  let name := parsed.Command parsed in
  let found := os_lookpath os (trace s) name in
  processInput os TrimSpace Atoi other_builtin input s =
  Returns
    (Some (if found
           then Errorf "%s: command not found (only built-in commands are supported)"
                       [AStr name]
           else Errorf "%s: command not found" [AStr name]))
    (mkState (heap s) (next_loc s) (jm s) (trace s ++ [EvLookPath name found])).
Proof.
  intros Hp Hv Hb name found. unfold processInput.
  rewrite Hp, Hv, Hb. unfold bind, LookPath, ret. fold name. fold found.
  now destruct found.
Qed.

End Dispatch.

(** C10, an instance: [fg 1] and [bg 1] on the table of a new shell. *)
Lemma fg_bg_empty_table_no_jobs_witness :
  handleFG os_fair decimal_Atoi ["fg"; "1"] fresh_state =
    Returns (Some FgNoJobs) fresh_state /\
  handleBG os_fair decimal_Atoi ["bg"; "1"] fresh_state =
    Returns (Some BgNoJobs) fresh_state.
Proof.
  split.
  - destruct (fg_bg_empty_table_no_jobs os_fair decimal_Atoi ["fg"; "1"]
                fresh_state eq_refl) as (_ & _ & H).
    apply (H "fg" "1" 1); [reflexivity | discriminate | reflexivity | lia].
  - destruct (fg_bg_empty_table_no_jobs os_fair decimal_Atoi ["bg"; "1"]
                fresh_state eq_refl) as (_ & _ & H).
    apply (H "bg" "1" 1); [reflexivity | discriminate | reflexivity | lia].
Defined.

(** C9, an instance: a name that is on the path and is not a built-in. *)
Lemma non_builtin_is_not_found_witness :
  processInput os_fair ascii_TrimSpace decimal_Atoi (fun _ _ => ret None)
               "  frobnicate now " fresh_state =
  Returns
    (Some (Errorf "%s: command not found (only built-in commands are supported)"
                  [AStr "frobnicate"]))
    (mkState (heap fresh_state) (next_loc fresh_state) (jm fresh_state)
             [EvLookPath "frobnicate" true]).
Proof.
  apply (non_builtin_is_not_found os_fair ascii_TrimSpace decimal_Atoi
           (fun _ _ => ret None) "  frobnicate now "
           (parsed.mkParsed "frobnicate" ["frobnicate"; "now"] false
                            [["frobnicate"; "now"]])
           fresh_state); reflexivity.
Defined.

(** ** Job ids over the life of a job manager *)

Section Lifetime.

Variable os : OS.

Ltac shrink_cases :=
  unfold shrinks; intros H; run;
  repeat (split_match; cbn [next_loc jm jobs jobCounter] in * ); try settle;
  cbn; repeat split; try reflexivity; try tauto;
  intros id' job' Hl; apply lookup_delete_Some in Hl; tauto.

Lemma BringToForeground_shrinks jobID s r s' :
  BringToForeground os jobID s = Returns r s' -> shrinks s s'.
Proof. shrink_cases. Qed.

Lemma ResumeInBackground_shrinks jobID s r s' :
  ResumeInBackground os jobID s = Returns r s' -> shrinks s s'.
Proof. shrink_cases. Qed.

Lemma KillJob_shrinks jobID s r s' :
  KillJob os jobID s = Returns r s' -> shrinks s s'.
Proof. shrink_cases. Qed.

Lemma CleanupCompletedJobs_run s :
  CleanupCompletedJobs s =
  Returns tt (mkState (heap s) (next_loc s)
                      (mkJM (swept (heap s) (jobs (jm s)) (map_to_list (jobs (jm s))))
                            (jobCounter (jm s)))
                      (trace s)).
Proof. unfold CleanupCompletedJobs, bind, get_jobs. apply cleanup_range_run. Qed.

Lemma CleanupCompletedJobs_shrinks s r s' :
  CleanupCompletedJobs s = Returns r s' -> shrinks s s'.
Proof.
  rewrite CleanupCompletedJobs_run. intros [= _ <-]. unfold shrinks. cbn.
  repeat split. intros id job H. apply swept_all in H; [tauto | reflexivity].
Qed.

Lemma shrinks_ok s s' : shrinks s s' -> table_ok s -> table_ok s'.
Proof.
  intros (Hc & Hn & Hsub) (H0 & Hids & Hinj). unfold table_ok.
  rewrite Hc, Hn. split; [assumption|]. split.
  - intros id job Hl. apply Hids. now apply Hsub.
  - intros id1 id2 job Hl1 Hl2. apply (Hinj id1 id2 job); now apply Hsub.
Qed.

Lemma register_run h text bg s :
  exists s',
    register os h text bg s = Returns (jobCounter (jm s) + 1) s' /\
    jobCounter (jm s') = jobCounter (jm s) + 1 /\
    jobs (jm s') = <[jobCounter (jm s) + 1 := next_loc s]> (jobs (jm s)) /\
    next_loc s' = S (next_loc s) /\
    heap s' (next_loc s) =
      mkJob (jobCounter (jm s) + 1)
            (match Process h with Some p => Pid p | None => 0 end)
            text [] JobStatusRunning (Some h) (os_now os (trace s)) None bg /\
    (forall l, l <> next_loc s -> heap s' l = heap s l) /\
    trace s' = trace s ++ [EvNow (os_now os (trace s))].
Proof.
  eexists. split; [reflexivity|]. cbn. rewrite Nat.eqb_refl.
  repeat split. intros l Hl%Nat.eqb_neq. now rewrite Hl.
Qed.

Lemma register_ok h text bg s id s' :
  register os h text bg s = Returns id s' -> table_ok s ->
  table_ok s' /\ id = jobCounter (jm s) + 1 /\ jobCounter (jm s') = id.
Proof.
  destruct (register_run h text bg s) as (s1 & Hrun & Hc & Hj & Hn & _).
  rewrite Hrun. intros [= <- <-] (H0 & Hids & Hinj).
  split; [|now split]. unfold table_ok. rewrite Hc, Hj, Hn.
  assert (Hfresh : forall id, jobs (jm s) !! id = Some (next_loc s) -> False).
  { intros id Hl. apply Hids in Hl. lia. }
  split; [lia|]. split.
  - intros id job Hl. apply lookup_insert_Some in Hl as [[<- <-] | [Hne Hl]].
    + lia.
    + apply Hids in Hl. lia.
  - intros id1 id2 job Hl1 Hl2.
    apply lookup_insert_Some in Hl1 as [[<- <-] | [Hne1 Hl1]];
      apply lookup_insert_Some in Hl2 as [[<- Hj2] | [Hne2 Hl2]];
      try reflexivity; try (subst; now destruct (Hfresh _ ltac:(eassumption))).
    now apply (Hinj id1 id2 job).
Qed.

Lemma run_call_ok c s r s' :
  run_call os c s = Returns r s' -> table_ok s ->
  table_ok s' /\
  match r with
  | Some id => id = jobCounter (jm s) + 1 /\ jobCounter (jm s') = id
  | None => jobCounter (jm s') = jobCounter (jm s)
  end.
Proof.
  intros Hrun Hok. destruct c as [h text bg | jobID | jobID | jobID |];
    cbn [run_call] in Hrun; unfold bind at 1 in Hrun.
  - destruct (register os h text bg s) as [id s1|] eqn:Hreg; [|discriminate].
    injection Hrun as <- <-. now apply (register_ok h text bg).
  - destruct (BringToForeground os jobID s) as [e s1|] eqn:Hop; [|discriminate].
    injection Hrun as <- <-. apply BringToForeground_shrinks in Hop.
    split; [now apply (shrinks_ok s)|]. apply Hop.
  - destruct (ResumeInBackground os jobID s) as [e s1|] eqn:Hop; [|discriminate].
    injection Hrun as <- <-. apply ResumeInBackground_shrinks in Hop.
    split; [now apply (shrinks_ok s)|]. apply Hop.
  - destruct (KillJob os jobID s) as [e s1|] eqn:Hop; [|discriminate].
    injection Hrun as <- <-. apply KillJob_shrinks in Hop.
    split; [now apply (shrinks_ok s)|]. apply Hop.
  - destruct (CleanupCompletedJobs s) as [e s1|] eqn:Hop; [|discriminate].
    injection Hrun as <- <-. apply CleanupCompletedJobs_shrinks in Hop.
    split; [now apply (shrinks_ok s)|]. apply Hop.
Qed.

(** The ids a sequence of calls hands out lie above the counter it
    started from, up to the counter it ends with, in increasing order. *)
Lemma run_calls_ok cs s ids s' :
  run_calls os cs s = Returns ids s' -> table_ok s ->
  table_ok s' /\
  jobCounter (jm s) <= jobCounter (jm s') /\
  Forall (fun id => jobCounter (jm s) < id <= jobCounter (jm s')) ids /\
  StronglySorted Z.lt ids.
Proof.
  revert s ids s'. induction cs as [|c rest IH]; intros s ids s' Hrun Hok.
  - injection Hrun as <- <-. split; [assumption|]. split; [lia|]. split; constructor.
  - cbn [run_calls] in Hrun. unfold bind at 1 in Hrun.
    destruct (run_call os c s) as [r s1|] eqn:Hc; [|discriminate].
    unfold bind at 1 in Hrun.
    destruct (run_calls os rest s1) as [ids1 s2|] eqn:Hr; [|discriminate].
    injection Hrun as <- <-.
    destruct (run_call_ok c s r s1 Hc Hok) as [Hok1 Hr1].
    destruct (IH s1 ids1 s2 Hr Hok1) as (Hok2 & Hle & Hall & Hsorted).
    split; [assumption|]. destruct r as [id|].
    + destruct Hr1 as [-> Hc1]. rewrite Hc1 in *.
      split; [lia|]. split.
      * constructor; [lia|]. eapply Forall_impl; [exact Hall|].
        intros x Hx. cbn in Hx. lia.
      * constructor; [assumption|]. eapply Forall_impl; [exact Hall|].
        intros x Hx. cbn in Hx. lia.
    + rewrite Hr1 in *. repeat split; assumption.
Qed.

Lemma fresh_state_ok : table_ok fresh_state.
Proof.
  unfold table_ok, fresh_state, NewJobManager. cbn. split; [lia|].
  split; intros * H; rewrite lookup_empty in H; discriminate H.
Qed.

(** C6.  At any moment in the life of a job manager (after the calls
    [cs1] and then the calls [cs2] on a new manager), [register] returns
    a positive id that is greater than every id the earlier [register]
    calls returned and greater than every id the table held at the
    earlier moment, whether or not that id has been removed since; it
    inserts under this id, which the table does not hold, a new record
    with status [Running] and leaves the other entries and their records
    as they are; and no two ids of the table share a record. *)
Theorem register_ids_increase_and_are_never_reused
    cs1 cs2 ids1 ids2 s1 s2 h text bg :
  run_calls os cs1 fresh_state = Returns ids1 s1 ->
  run_calls os cs2 s1 = Returns ids2 s2 ->
  exists id s3 job,
    register os h text bg s2 = Returns id s3 /\
    0 < id /\
    StronglySorted Z.lt (ids1 ++ ids2 ++ [id]) /\
    (forall id' job', jobs (jm s1) !! id' = Some job' -> id' < id) /\
    jobs (jm s2) !! id = None /\
    jobs (jm s3) !! id = Some job /\
    Status (heap s3 job) = JobStatusRunning /\
    StartTime (heap s3 job) = os_now os (trace s2) /\
    EndTime (heap s3 job) = None /\
    Cmd (heap s3 job) = Some h /\
    Command (heap s3 job) = text /\
    Background (heap s3 job) = bg /\
    (forall id' job', jobs (jm s2) !! id' = Some job' ->
                      jobs (jm s3) !! id' = Some job' /\
                      heap s3 job' = heap s2 job') /\
    (forall id1 id2 job', jobs (jm s3) !! id1 = Some job' ->
                          jobs (jm s3) !! id2 = Some job' -> id1 = id2).
Proof.
  intros Hrun1 Hrun2.
  destruct (run_calls_ok cs1 fresh_state ids1 s1 Hrun1 fresh_state_ok)
    as (Hok1 & Hle1 & Hall1 & Hs1).
  destruct (run_calls_ok cs2 s1 ids2 s2 Hrun2 Hok1)
    as (Hok2 & Hle2 & Hall2 & Hs2).
  destruct (register_run h text bg s2)
    as (s3 & Hreg & Hc3 & Hj3 & Hn3 & Hrec & Hoth & Htr).
  destruct (register_ok h text bg s2 _ s3 Hreg Hok2) as (Hok3 & _ & _).
  change (jobCounter (jm fresh_state)) with 0 in *.
  rewrite Forall_forall in Hall1, Hall2.
  exists (jobCounter (jm s2) + 1), s3, (next_loc s2).
  split; [assumption|]. split; [lia|]. split.
  { apply StronglySorted_app_2; [|assumption|apply StronglySorted_app_2].
    - intros x1 x2 Hx1%Hall1 [Hx2%Hall2 | ->%list_elem_of_singleton]%elem_of_app; lia.
    - intros x1 x2 Hx1%Hall2 ->%list_elem_of_singleton. lia.
    - assumption.
    - repeat constructor. }
  split.
  { intros id' job' Hl. destruct Hok1 as (_ & Hids & _). apply Hids in Hl. lia. }
  assert (Hnone : jobs (jm s2) !! (jobCounter (jm s2) + 1) = None).
  { destruct (jobs (jm s2) !! (jobCounter (jm s2) + 1)) as [job'|] eqn:Hl;
      [|reflexivity].
    destruct Hok2 as (_ & Hids & _). apply Hids in Hl. lia. }
  split; [assumption|]. rewrite Hj3, Hrec. cbn.
  split; [apply lookup_insert_eq|]. repeat (split; [reflexivity|]). split.
  - intros id' job' Hl. split.
    + rewrite lookup_insert_ne; [assumption|]. intros <-. congruence.
    + apply Hoth. destruct Hok2 as (_ & Hids & _). apply Hids in Hl. lia.
  - destruct Hok3 as (_ & _ & Hinj). rewrite Hj3 in Hinj. exact Hinj.
Qed.

End Lifetime.

(** C6, an instance: two jobs registered, the second killed and cleaned
    up; the next id is greater than [1] and [2]. *)
Lemma register_ids_increase_and_are_never_reused_witness :
  match run_calls os_fair
          [CallRegister sleep_cmd "sleep 60" true;
           CallRegister sleep_cmd "sleep 90" true;
           CallKill 2; CallCleanup] fresh_state with
  | Returns ids1 s1 =>
    ids1 = [1; 2] /\
    jobs (jm s1) !! 2 = None /\
    exists id s3,
      register os_fair sleep_cmd "sleep 5" false s1 = Returns id s3 /\
      0 < id /\
      StronglySorted Z.lt (ids1 ++ [] ++ [id])
  | Blocks _ => False
  end.
Proof.
  destruct (run_calls os_fair _ fresh_state) as [ids1 s1|] eqn:H1.
  - destruct (register_ids_increase_and_are_never_reused os_fair _ [] ids1 []
                s1 s1 sleep_cmd "sleep 5" false H1 eq_refl)
      as (id & s3 & job & Hreg & Hpos & Hsorted & _).
    vm_compute in H1. injection H1 as <- <-.
    split; [reflexivity|]. split; [reflexivity|].
    exists id, s3. split; [exact Hreg|]. split; [exact Hpos | exact Hsorted].
  - vm_compute in H1. discriminate H1.
Defined.

(** ** The tokenizer *)

(** *** The reading of a line the design document describes *)

Section Strings.

Lemma app_cons (c : ascii) (a b : string) : String c a +:+ b = String c (a +:+ b).
Proof. reflexivity. Qed.

Lemma app_empty_l (a : string) : "" +:+ a = a.
Proof. reflexivity. Qed.

Lemma app_empty_r (a : string) : a +:+ "" = a.
Proof. induction a as [|c a IH]; [reflexivity|]. now rewrite app_cons, IH. Qed.

Lemma app_assoc_s (a b c : string) : (a +:+ b) +:+ c = a +:+ (b +:+ c).
Proof. induction a as [|x a IH]; [reflexivity|]. now rewrite !app_cons, IH. Qed.

Lemma length_app_s (a b : string) :
  String.length (a +:+ b) = (String.length a + String.length b)%nat.
Proof. induction a as [|x a IH]; [reflexivity|]. rewrite app_cons. cbn. now rewrite IH. Qed.

Lemma nonempty_ltb (a : string) :
  (0 <? String.length a)%nat = bool_decide (a <> "").
Proof. destruct a; reflexivity. Qed.

End Strings.

Section Tokenizer.

Lemma scan_range_app (a b : string) (st : scanstate) :
  scan_range (a +:+ b) st = scan_range b (scan_range a st).
Proof.
  revert st. induction a as [|c a IH]; intros st; [reflexivity|].
  rewrite app_cons. cbn [scan_range]. apply IH.
Qed.

Lemma scan_unfold (input : string) :
  scan input = scan_end (scan_range input (mkScan [] "" false zero)).
Proof. reflexivity. Qed.

Lemma blank_not_quote (c : ascii) : is_blank c = true -> is_quote c = false.
Proof.
  unfold is_blank. intros [H | H]%orb_true_iff; apply Ascii.eqb_eq in H; now subst.
Qed.

(** Inside a span every character but the closing quote is written. *)
Lemma step_in_span (st : scanstate) (c : ascii) :
  sc_inQuotes st = true -> Ascii.eqb c (sc_quoteChar st) = false ->
  scan_step st c = WriteByte st c.
Proof.
  intros Hin Hne. unfold scan_step. rewrite Hin, Hne. cbn [negb].
  destruct (Ascii.eqb c dquote || Ascii.eqb c squote); [reflexivity|].
  now destruct (Ascii.eqb c space || Ascii.eqb c tab).
Qed.

Lemma range_in_span (body : string) (toks : list string) (cur : string) (q : ascii) :
  IndexByte body q = false ->
  scan_range body (mkScan toks cur true q) = mkScan toks (cur +:+ body) true q.
Proof.
  revert cur. induction body as [|c body IH]; intros cur Hq.
  - now rewrite app_empty_r.
  - cbn [IndexByte] in Hq. apply orb_false_iff in Hq as [Hc Hq].
    rewrite Ascii.eqb_sym in Hc.
    cbn [scan_range]. rewrite step_in_span by (cbn; auto).
    unfold WriteByte. cbn [sc_tokens sc_current sc_inQuotes sc_quoteChar].
    rewrite (IH _ Hq), app_assoc_s. reflexivity.
Qed.

(** A whole span: the quotes are dropped, the body is written. *)
Lemma range_span (q : ascii) (body : string) (toks : list string) (cur : string)
    (qc : ascii) :
  is_quote q = true -> IndexByte body q = false ->
  scan_range (render_item (Span q body)) (mkScan toks cur false qc) =
  mkScan toks (cur +:+ body) false zero.
Proof.
  intros Hq Hb. cbn [render_item scan_range].
  assert (Hopen : scan_step (mkScan toks cur false qc) q = mkScan toks cur true q).
  { unfold scan_step. unfold is_quote in Hq. now rewrite Hq. }
  rewrite Hopen, scan_range_app, (range_in_span body toks cur q Hb).
  cbn [scan_range]. unfold scan_step. unfold is_quote in Hq.
  rewrite Hq. cbn [sc_inQuotes negb sc_quoteChar sc_tokens sc_current].
  now rewrite Ascii.eqb_refl.
Qed.

Lemma range_plain (c : ascii) (toks : list string) (cur : string) (qc : ascii) :
  is_quote c = false -> is_blank c = false ->
  scan_range (render_item (Plain c)) (mkScan toks cur false qc) =
  mkScan toks (cur +:+ String c "") false qc.
Proof.
  intros Hq Hb. cbn [render_item scan_range]. unfold scan_step.
  unfold is_quote in Hq. unfold is_blank in Hb. now rewrite Hq, Hb.
Qed.

Lemma range_blank (c : ascii) (toks : list string) (cur : string) (qc : ascii) :
  is_blank c = true ->
  scan_range (render_item (Blank c)) (mkScan toks cur false qc) =
  if bool_decide (cur <> "")
  then mkScan (toks ++ [cur]) "" false qc
  else mkScan toks cur false qc.
Proof.
  intros Hb. pose proof (blank_not_quote c Hb) as Hq.
  cbn [render_item scan_range]. unfold scan_step.
  unfold is_quote in Hq. unfold is_blank in Hb. rewrite Hq, Hb.
  cbn [sc_inQuotes sc_current sc_tokens sc_quoteChar]. rewrite nonempty_ltb.
  now destruct (bool_decide (cur <> "")).
Qed.

Lemma glue_text (cur : string) (it : item) (rest : list item) :
  (forall c, it <> Blank c) ->
  glue cur (words (it :: rest)) = glue (cur +:+ text_of it) (words rest).
Proof.
  intros Hnb. destruct it as [c|c|q body]; [|now destruct (Hnb c)|];
    cbn [words]; destruct (words rest) as [|w ws]; cbn [glue];
    now rewrite ?app_assoc_s, ?app_empty_r.
Qed.

Lemma filter_glue_empty (ws : list string) :
  filter (fun w : string => w <> "") (glue "" ws) =
  filter (fun w : string => w <> "") ws.
Proof. destruct ws as [|w ws]; reflexivity. Qed.

(** The loop over a line of closed items, from a state outside quotes. *)
Lemma scan_items (its : list item) (toks : list string) (cur : string)
    (qc : ascii) :
  Forall item_ok its ->
  scan_end (scan_range (render its) (mkScan toks cur false qc)) =
  toks ++ filter (fun w : string => w <> "") (glue cur (words its)).
Proof.
  intros Hok. revert toks cur qc.
  induction Hok as [|it its Hit Hits IH]; intros toks cur qc.
  - cbn [render scan_range words glue]. unfold scan_end.
    cbn [sc_current sc_tokens]. rewrite nonempty_ltb, app_empty_r.
    rewrite filter_cons, filter_nil.
    destruct (decide (cur <> "")) as [H|H].
    + now rewrite bool_decide_eq_true_2.
    + rewrite bool_decide_eq_false_2 by assumption. now rewrite app_nil_r.
  - cbn [render]. rewrite scan_range_app.
    destruct it as [c|c|q body]; cbn [item_ok] in Hit.
    + destruct Hit as [Hq Hb]. rewrite range_plain, IH by assumption.
      now rewrite (glue_text cur (Plain c)) by discriminate.
    + rewrite range_blank by assumption. cbn [words glue].
      rewrite app_empty_r, filter_cons.
      destruct (decide (cur <> "")) as [H|H].
      * rewrite bool_decide_eq_true_2, IH, filter_glue_empty by assumption.
        now rewrite <- app_assoc.
      * rewrite bool_decide_eq_false_2, IH by assumption.
        apply dec_stable in H. subst cur. now rewrite filter_glue_empty.
    + destruct Hit as [Hq Hb]. rewrite range_span, IH by assumption.
      now rewrite (glue_text cur (Span q body)) by discriminate.
Qed.

Lemma render_app (a b : list item) : render (a ++ b) = render a +:+ render b.
Proof.
  induction a as [|it a IH]; [reflexivity|].
  cbn [render app]. now rewrite IH, app_assoc_s.
Qed.

(** After closed items the loop is outside quotes again. *)
Lemma range_items_closed (its : list item) (toks : list string) (cur : string)
    (qc : ascii) :
  Forall item_ok its ->
  exists toks' cur' qc',
    scan_range (render its) (mkScan toks cur false qc) =
    mkScan toks' cur' false qc'.
Proof.
  intros Hok. revert toks cur qc.
  induction Hok as [|it its Hit Hits IH]; intros toks cur qc.
  - now exists toks, cur, qc.
  - cbn [render]. rewrite scan_range_app.
    destruct it as [c|c|q body]; cbn [item_ok] in Hit.
    + destruct Hit as [Hq Hb]. rewrite range_plain by assumption. apply IH.
    + rewrite range_blank by assumption.
      destruct (bool_decide (cur <> "")); apply IH.
    + destruct Hit as [Hq Hb]. rewrite range_span by assumption. apply IH.
Qed.

(** A span that is still open when the input ends gives the tokens of the
    line with the closing quote added. *)
Lemma scan_open_span (its : list item) (q : ascii) (body : string) :
  Forall item_ok its -> is_quote q = true -> IndexByte body q = false ->
  scan (render its +:+ String q body) =
  scan (render (its ++ [Span q body])).
Proof.
  intros Hok Hq Hb. rewrite render_app, !scan_unfold, !scan_range_app.
  destruct (range_items_closed its [] "" zero Hok) as (toks & cur & qc & ->).
  cbn [render]. rewrite app_empty_r, range_span by assumption.
  cbn [scan_range].
  assert (Hopen : scan_step (mkScan toks cur false qc) q = mkScan toks cur true q).
  { unfold scan_step. unfold is_quote in Hq. now rewrite Hq. }
  now rewrite Hopen, range_in_span.
Qed.

Lemma scan_closed (its : list item) :
  Forall item_ok its -> scan (render its) = nonempty_words its.
Proof.
  intros Hok. rewrite scan_unfold, scan_items by assumption.
  unfold nonempty_words. cbn [app]. destruct (words its); reflexivity.
Qed.

(** Every line reads as items, with at most a span left open. *)
Lemma lex_reads (input : string) (o : option (ascii * string)) :
  Forall item_ok (close [] o) ->
  Forall item_ok (close (lex input o).1 (lex input o).2) /\
  render_open o +:+ input = render (lex input o).1 +:+ render_open (lex input o).2.
Proof.
  revert o. induction input as [|c rest IH]; intros o Ho.
  - cbn [lex fst snd render]. now rewrite app_empty_r.
  - cbn [lex]. destruct o as [[q body]|].
    + unfold close in Ho. cbn [app] in Ho.
      apply Forall_singleton in Ho as [Hq Hb].
      destruct (Ascii.eqb c q) eqn:Hc.
      * apply Ascii.eqb_eq in Hc. subst c.
        destruct (IH None) as [Hok Hr]; [constructor|].
        destruct (lex rest None) as [its o']. cbn [fst snd] in *.
        split.
        -- unfold close in *. cbn [app]. constructor; [now split | assumption].
        -- cbn [render render_item render_open] in *.
           rewrite app_empty_l in Hr.
           rewrite app_assoc_s, <- Hr, !app_cons, app_assoc_s. reflexivity.
      * destruct (IH (Some (q, body +:+ String c ""))) as [Hok Hr].
        { unfold close. cbn [app]. apply Forall_singleton. split; [assumption|].
          clear -Hb Hc. induction body as [|x body IHb].
          - rewrite app_empty_l. cbn [IndexByte]. rewrite Ascii.eqb_sym, Hc. reflexivity.
          - rewrite app_cons. cbn [IndexByte] in *.
            apply orb_false_iff in Hb as [Hx Hb]. now rewrite Hx, IHb. }
        split; [assumption|]. rewrite <- Hr. cbn [render_open].
        now rewrite !app_cons, app_assoc_s.
    + destruct (is_quote c) eqn:Hq.
      * destruct (IH (Some (c, ""))) as [Hok Hr].
        { unfold close. cbn [app]. apply Forall_singleton. now split. }
        split; [assumption|]. now rewrite <- Hr.
      * destruct (IH None) as [Hok Hr]; [constructor|].
        destruct (lex rest None) as [its o']. cbn [fst snd] in *.
        cbn [render_open] in *. rewrite app_empty_l in *.
        split.
        -- unfold close in *. cbn [app]. constructor; [|assumption].
           destruct (is_blank c) eqn:Hb; cbn [item_ok]; auto.
        -- cbn [render]. rewrite app_assoc_s, <- Hr.
           now destruct (is_blank c).
Qed.

(** The words are the texts of the fields. *)
Lemma words_fields (its : list item) : words its = map field_text (fields its).
Proof.
  induction its as [|it its IH]; [reflexivity|].
  destruct it as [c|c|q body]; cbn [words fields]; rewrite IH;
    destruct (fields its) as [|f fs]; cbn [map field_text];
    now rewrite ?app_empty_r.
Qed.

Lemma filter_field_text (fs : list (list item)) :
  filter (fun w : string => w <> "") (map field_text fs) =
  filter (fun w : string => w <> "")
         (map field_text (filter (fun f : list item => f <> []) fs)).
Proof.
  induction fs as [|f fs IH]; [reflexivity|].
  destruct f as [|it f].
  - cbn [map field_text]. rewrite !filter_cons.
    destruct (decide ("" <> "")) as [H|_]; [now destruct H|].
    destruct (decide (@nil item <> [])) as [H|_]; [now destruct H|]. exact IH.
  - rewrite (filter_cons _ (it :: f)).
    destruct (decide (it :: f <> [])) as [_|H]; [|now destruct H].
    cbn [map]. rewrite !filter_cons, IH. reflexivity.
Qed.

(** The words that are not empty are the tokens that are not empty. *)
Lemma nonempty_words_tokens (its : list item) :
  nonempty_words its = filter (fun w : string => w <> "") (spec_tokens its).
Proof.
  unfold nonempty_words, spec_tokens. rewrite words_fields. apply filter_field_text.
Qed.

(** *** The loop over runes and the loop over the bytes it writes *)

Lemma byte_of_value (b : ascii) : byte_of (byte_value b) = b.
Proof. destruct b as [[] [] [] [] [] [] [] []]; reflexivity. Qed.

Lemma byte_value_nonneg (b : ascii) : 0 <= byte_value b.
Proof. apply N2Z.is_nonneg. Qed.

Lemma small_runes (P : Z -> bool) :
  forallb P (map Z.of_nat (seq 0 128)) = true ->
  forall r, 0 <= r < 128 -> P r = true.
Proof.
  intros H r Hr. rewrite List.forallb_forall in H. apply H.
  apply List.in_map_iff. exists (Z.to_nat r). split; [lia|].
  apply List.in_seq. lia.
Qed.

(** Below 128 a rune is written as the byte of its value, and the four
    runes of the [switch] are the four characters. *)
Lemma small_rune_byte (r : rune) :
  0 <= r < 128 ->
  Ascii.eqb (byte_of r) dquote = (r =? rune_dquote) /\
  Ascii.eqb (byte_of r) squote = (r =? rune_squote) /\
  Ascii.eqb (byte_of r) space = (r =? rune_space) /\
  Ascii.eqb (byte_of r) tab = (r =? rune_tab).
Proof.
  intros Hr.
  pose (P := fun r : Z =>
    Bool.eqb (Ascii.eqb (byte_of r) dquote) (r =? rune_dquote) &&
    Bool.eqb (Ascii.eqb (byte_of r) squote) (r =? rune_squote) &&
    Bool.eqb (Ascii.eqb (byte_of r) space) (r =? rune_space) &&
    Bool.eqb (Ascii.eqb (byte_of r) tab) (r =? rune_tab)).
  assert (Hall : forallb P (map Z.of_nat (seq 0 128)) = true)
    by (vm_compute; reflexivity).
  pose proof (small_runes P Hall r Hr) as H. unfold P in H.
  apply andb_true_iff in H as [H H4]. apply andb_true_iff in H as [H H3].
  apply andb_true_iff in H as [H1 H2].
  apply Bool.eqb_prop in H1, H2, H3, H4. auto.
Qed.

Lemma EncodeRune_small (r : rune) :
  0 <= r < 128 -> EncodeRune r = String (byte_of r) "".
Proof.
  intros Hr. unfold EncodeRune.
  destruct (Z.leb_spec 0 r), (Z.leb_spec r 127); try lia. reflexivity.
Qed.

Lemma step_small (st : tokstate) (sc : scanstate) (r : rune) :
  0 <= r < 128 -> in_step st sc ->
  in_step (tokenize_step st r) (scan_step sc (byte_of r)).
Proof.
  intros Hr (Ht & Hc & Hi & Hq).
  destruct (small_rune_byte r Hr) as (Hd & Hs & Hsp & Htb).
  unfold tokenize_step, scan_step, WriteRune, WriteByte.
  rewrite Hd, Hs, Hsp, Htb, (EncodeRune_small r Hr), <- Ht, <- Hc, <- Hi.
  destruct ((r =? rune_dquote) || (r =? rune_squote)) eqn:Eq.
  - destruct (inQuotes st) eqn:Ein; cbn [negb].
    + destruct (Hq eq_refl) as [[Hr1 Hr2] | [Hr1 Hr2]]; rewrite Hr1, Hr2.
      * rewrite Hd. destruct (r =? rune_dquote).
        -- unfold in_step. cbn. repeat split; auto; discriminate.
        -- unfold in_step. cbn. repeat split; auto.
      * rewrite Hs. destruct (r =? rune_squote).
        -- unfold in_step. cbn. repeat split; auto; discriminate.
        -- unfold in_step. cbn. repeat split; auto.
    + unfold in_step. cbn. split; [reflexivity|]. split; [reflexivity|].
      split; [reflexivity|]. intros _.
      apply orb_true_iff in Eq as [E | E]; apply Z.eqb_eq in E; subst r;
        [left | right]; split; reflexivity.
  - destruct ((r =? rune_space) || (r =? rune_tab)).
    + destruct (inQuotes st) eqn:Ein.
      * unfold in_step. cbn. repeat split; auto.
      * destruct (0 <? String.length (current st))%nat.
        -- unfold in_step. cbn. repeat split; auto.
        -- unfold in_step. rewrite Ein. repeat split; auto.
    + unfold in_step. cbn. repeat split; auto.
Qed.

(** A byte above 127 is neither a quote nor a blank. *)
Lemma high_not_special (b : ascii) :
  high b = true -> is_quote b = false /\ is_blank b = false.
Proof.
  destruct b as [b0 b1 b2 b3 b4 b5 b6 []]; [|discriminate]. intros _.
  destruct b0, b1, b2, b3, b4, b5, b6; split; reflexivity.
Qed.

Lemma scan_step_high (sc : scanstate) (b : ascii) :
  high b = true -> scan_step sc b = WriteByte sc b.
Proof.
  intros Hb. destruct (high_not_special b Hb) as [Hq Hn].
  unfold scan_step. unfold is_quote in Hq. unfold is_blank in Hn.
  now rewrite Hq, Hn.
Qed.

Lemma scan_range_high (s : string) (sc : scanstate) :
  all_high s = true ->
  scan_range s sc =
  mkScan (sc_tokens sc) (sc_current sc +:+ s) (sc_inQuotes sc) (sc_quoteChar sc).
Proof.
  revert sc. induction s as [|b s IH]; intros sc H.
  - rewrite app_empty_r. now destruct sc.
  - cbn [all_high] in H. apply andb_true_iff in H as [Hb H].
    cbn [scan_range]. rewrite scan_step_high, IH by assumption.
    unfold WriteByte. cbn [sc_tokens sc_current sc_inQuotes sc_quoteChar].
    now rewrite app_assoc_s.
Qed.

(** Every byte of the encoding of a rune outside 0..127 is above 127. *)
Lemma EncodeRune_high (r : rune) :
  ~ 0 <= r < 128 -> all_high (EncodeRune r) = true.
Proof.
  intros Hr. unfold EncodeRune.
  destruct ((0 <=? r) && (r <=? 127)) eqn:E.
  { apply andb_true_iff in E as [E1 E2]. lia. }
  destruct ((0 <=? r) && (r <=? 2047));
    [|destruct ((r <? 0) || (1114111 <? r) || (55296 <=? r) && (r <=? 57343));
      [|destruct (r <=? 65535)]];
    cbv [encode3 all_high high byte_of]; rewrite ?Z.lor_spec; reflexivity.
Qed.

Lemma step_high (st : tokstate) (sc : scanstate) (r : rune) :
  ~ 0 <= r < 128 -> in_step st sc ->
  in_step (tokenize_step st r) (scan_range (EncodeRune r) sc).
Proof.
  intros Hr (Ht & Hc & Hi & Hq).
  rewrite scan_range_high by now apply EncodeRune_high.
  assert (Hw : tokenize_step st r = WriteRune st r).
  { unfold tokenize_step, rune_dquote, rune_squote, rune_space, rune_tab.
    destruct (Z.eqb_spec r 34), (Z.eqb_spec r 39), (Z.eqb_spec r 32),
      (Z.eqb_spec r 9); try lia. reflexivity. }
  rewrite Hw. unfold in_step, WriteRune. cbn. rewrite <- Ht, <- Hc.
  repeat split; auto.
Qed.

Lemma range_in_step (runes : list rune) (st : tokstate) (sc : scanstate) :
  in_step st sc ->
  in_step (tokenize_range runes st) (scan_range (encode_all runes) sc).
Proof.
  revert st sc. induction runes as [|r runes IH]; intros st sc H; [exact H|].
  cbn [tokenize_range encode_all]. rewrite scan_range_app. apply IH.
  destruct (decide (0 <= r < 128)) as [Hr|Hr].
  - rewrite (EncodeRune_small r Hr). cbn [scan_range]. now apply step_small.
  - now apply step_high.
Qed.

(** [tokenize] is the loop over bytes on the line as it is decoded. *)
Lemma tokenize_scan (input : string) : tokenize input = scan (sanitize input).
Proof.
  assert (H0 : in_step (mkTok [] "" false 0) (mkScan [] "" false zero)).
  { unfold in_step. cbn. repeat split; discriminate. }
  destruct (range_in_step (decode_runes input) _ _ H0) as (Ht & Hc & _).
  unfold tokenize, scan, scan_end, sanitize. cbv zeta. now rewrite Ht, Hc.
Qed.

(** A line of bytes below 128 is decoded as it is. *)
Lemma sanitize_ascii (input : string) :
  ascii_only input = true -> sanitize input = input.
Proof.
  unfold sanitize. induction input as [|b s IH]; intros H; [reflexivity|].
  cbn [ascii_only] in H. apply andb_true_iff in H as [Hb H].
  cbn [decode_runes]. cbv zeta. rewrite Hb. cbn [encode_all].
  apply Z.ltb_lt in Hb. pose proof (byte_value_nonneg b).
  rewrite EncodeRune_small, byte_of_value, IH by (assumption || lia).
  reflexivity.
Qed.

(** The tokens of a line, through a reading of the line as decoded. *)
Lemma tokenize_read (input : string) (its : list item)
    (o : option (ascii * string)) :
  Forall item_ok (close its o) ->
  sanitize input = render its +:+ render_open o ->
  tokenize input = nonempty_words (close its o).
Proof.
  intros Hok Hr. rewrite tokenize_scan, Hr.
  destruct o as [[q body]|]; unfold close in *; cbn [render_open].
  - apply Forall_app in Hok as Hok'. destruct Hok' as [Hits Hspan].
    apply Forall_singleton in Hspan as [Hq Hb].
    rewrite scan_open_span by assumption. now apply scan_closed.
  - rewrite app_nil_r in *. rewrite app_empty_r. now apply scan_closed.
Qed.

(** C7.  [tokenize] reads the line rune by rune, as the [range] loop
    decodes it: a byte that begins no valid encoding is read as the
    replacement character, and a line of bytes below 128 is read as it
    is.  Every line so decoded reads as plain characters, blanks and quote
    spans, the last span possibly left open; a span is opened by a single
    or a double quote and closed only by the same character.  On every
    such reading [tokenize] returns the tokens of the design document
    that are not empty: the line is split at the blanks outside spans, a
    span gives its body as it is (blanks and the other quote character
    included) without its quotes, a span left open counts as closed at
    the end of the input, and an empty span standing alone gives no
    token.  A backslash is a plain character.  In particular the two
    lines of the design document give the tokens it states. *)
Theorem tokenize_respects_quote_spans :
  (forall input its o,
     Forall item_ok (close its o) ->
     sanitize input = render its +:+ render_open o ->
     tokenize input =
     filter (fun w : string => w <> "") (spec_tokens (close its o))) /\
  (forall input, exists its o,
     Forall item_ok (close its o) /\
     sanitize input = render its +:+ render_open o) /\
  (forall input, ascii_only input = true -> sanitize input = input) /\
  item_ok (Plain backslash) /\
  tokenize ("a " +:+ String dquote ("b c" +:+ String dquote " d")) = ["a"; "b c"; "d"] /\
  tokenize ("a " +:+ String dquote "b c") = ["a"; "b c"] /\
  tokenize ("x 'a " +:+ String dquote "b'  y") = ["x"; "a " +:+ String dquote "b"; "y"] /\
  tokenize (String "a" (String backslash " b")) = [String "a" (String backslash ""); "b"] /\
  tokenize (String backslash (String dquote ("c d" +:+ String dquote "\n"))) =
    [String backslash "c d\n"].
Proof.
  split; [|split; [|split; [|split; [|repeat split]]]].
  - intros input its o Hok Hr. rewrite <- nonempty_words_tokens.
    now apply tokenize_read.
  - intros input. exists (lex (sanitize input) None).1, (lex (sanitize input) None).2.
    destruct (lex_reads (sanitize input) None) as [Hok Hr]; [constructor|].
    split; [assumption|]. now rewrite <- Hr.
  - exact sanitize_ascii.
  - split; reflexivity.
Qed.

End Tokenizer.

(** C7, an instance: a word, a blank and a span that is never closed. *)
Lemma tokenize_respects_quote_spans_witness :
  Forall item_ok (close [Plain "a"; Blank " "] (Some (dquote, "b c"))) /\
  sanitize ("a " +:+ String dquote "b c") =
  render [Plain "a"; Blank " "] +:+ render_open (Some (dquote, "b c")) /\
  tokenize ("a " +:+ String dquote "b c") =
  filter (fun w : string => w <> "")
         (spec_tokens (close [Plain "a"; Blank " "] (Some (dquote, "b c")))).
Proof.
  assert (Hok : Forall item_ok (close [Plain "a"; Blank " "]%char (Some (dquote, "b c")))).
  { unfold close. cbn [app]. repeat constructor. }
  assert (Hr : sanitize ("a " +:+ String dquote "b c") =
               render [Plain "a"; Blank " "]%char +:+ render_open (Some (dquote, "b c")))
    by (vm_compute; reflexivity).
  split; [exact Hok|]. split; [exact Hr|].
  destruct tokenize_respects_quote_spans as [H _].
  apply (H ("a " +:+ String dquote "b c") [Plain "a"; Blank " "]%char
           (Some (dquote, "b c")) Hok Hr).
Defined.

(** C7, where the words of the design document fail.  A byte that begins
    no valid encoding is a plain character of the line, yet the token
    holds the three bytes of the replacement character instead; and an
    empty pair of quotes between blanks is a field of the line, yet it
    gives no token. *)
Lemma tokenize_replaces_bytes_and_drops_empty_spans :
  (Forall item_ok [Plain "255"] /\
   tokenize (render [Plain "255"]) = [String "239" (String "191" (String "189" ""))] /\
   spec_tokens [Plain "255"] = [String "255" ""] /\
   tokenize (render [Plain "255"]) <> spec_tokens [Plain "255"]) /\
  (Forall item_ok [Plain "a"; Blank " "; Span dquote ""; Blank " "; Plain "b"] /\
   render [Plain "a"; Blank " "; Span dquote ""; Blank " "; Plain "b"] =
     "a " +:+ String dquote (String dquote " b") /\
   tokenize (render [Plain "a"; Blank " "; Span dquote ""; Blank " "; Plain "b"]) =
     ["a"; "b"] /\
   spec_tokens [Plain "a"; Blank " "; Span dquote ""; Blank " "; Plain "b"] =
     ["a"; ""; "b"]).
Proof.
  split.
  - split; [repeat constructor|]. split; [reflexivity|].
    split; [reflexivity|]. discriminate.
  - split; [repeat constructor|]. split; [reflexivity|].
    split; [reflexivity|]. reflexivity.
Qed.

(** ** The validator *)

Section Validator.







End Validator.


(** * Further properties of the sources *)

(** ** What the job-control operations change *)

Section Effects.

Variable os : OS.

Lemma KillJob_outcome jobID s :
  exists r s',
    KillJob os jobID s = Returns r s' /\
    jm s' = jm s /\
    (heap s' = heap s \/
     exists job t,
       jobs (jm s) !! jobID = Some job /\
       Status (heap s job) <> JobStatusDone /\
       heap s' job = set_EndTime (Some t) (set_Status JobStatusDone (heap s job)) /\
       only_changed s s' job /\ r = None).
Proof.
  destruct (jobs (jm s) !! jobID) as [job|] eqn:Hjob.
  2: { do 2 eexists. split; [now apply KillJob_not_found|]. auto. }
  destruct (String.eqb_spec (Status (heap s job)) JobStatusDone) as [Hd|Hd].
  { do 2 eexists. split; [now apply (KillJob_done os jobID s job)|]. auto. }
  destruct (live_process (heap s job)) as [[c p]|] eqn:Hlive.
  - destruct (os_signal os (trace s ++ [MsgTerminating (heap s job)]) p SIGKILL)
      as [err|] eqn:Hsig.
    + destruct (KillJob_failed os jobID s job c p err Hjob Hd Hlive Hsig)
        as (s1 & Hrun & [Hh Hj] & _).
      exists (Some (KillFailed err)), s1. auto.
    + destruct (KillJob_delivered os jobID s job c p Hjob Hd Hlive Hsig)
        as (s1 & t & Hrun & Hj & Hrec & Hoth & _).
      exists None, s1. split; [assumption|]. split; [assumption|].
      right. exists job, t. auto.
  - destruct (KillJob_no_process os jobID s job Hjob Hd Hlive)
      as (s1 & Hrun & [Hh Hj] & _).
    exists None, s1. auto.
Qed.

Lemma ResumeInBackground_outcome jobID s :
  exists r s',
    ResumeInBackground os jobID s = Returns r s' /\
    jm s' = jm s /\
    (heap s' = heap s \/
     exists job,
       jobs (jm s) !! jobID = Some job /\
       Status (heap s job) = JobStatusStopped /\
       heap s' job = set_Background true (set_Status JobStatusRunning (heap s job)) /\
       only_changed s s' job /\ r = None).
Proof.
  destruct (jobs (jm s) !! jobID) as [job|] eqn:Hjob.
  2: { do 2 eexists. split; [now apply ResumeInBackground_not_found|]. auto. }
  destruct (String.eqb_spec (Status (heap s job)) JobStatusDone) as [Hd|Hd].
  { do 2 eexists. split; [now apply (ResumeInBackground_done os jobID s job)|]. auto. }
  destruct (String.eqb_spec (Status (heap s job)) JobStatusStopped) as [Hs|Hs].
  2: { do 2 eexists.
       split; [now apply (ResumeInBackground_not_stopped os jobID s job)|]. auto. }
  destruct (live_process (heap s job)) as [[c p]|] eqn:Hlive.
  - destruct (os_signal os (trace s ++ [MsgResuming (heap s job)]) p SIGCONT)
      as [err|] eqn:Hsig.
    + destruct (ResumeInBackground_failed os jobID s job c p err Hjob Hs Hlive Hsig)
        as (s1 & Hrun & [Hh Hj] & _).
      exists (Some (ResumeFailed err)), s1. auto.
    + destruct (ResumeInBackground_delivered os jobID s job c p Hjob Hs Hlive Hsig)
        as (s1 & Hrun & Hj & Hrec & Hoth & _).
      exists None, s1. split; [assumption|]. split; [assumption|].
      right. exists job. auto.
  - destruct (ResumeInBackground_no_process os jobID s job Hjob Hs Hlive)
      as (s1 & Hrun & [Hh Hj] & _).
    exists None, s1. auto.
Qed.

Lemma BringToForeground_outcome jobID s :
  let o := BringToForeground os jobID s in
  jobCounter (jm (final o)) = jobCounter (jm s) /\
  (jobs (jm (final o)) = jobs (jm s) \/
   jobs (jm (final o)) = delete jobID (jobs (jm s)) /\ o = Returns None (final o)) /\
  (heap (final o) = heap s \/
   exists job,
     jobs (jm s) !! jobID = Some job /\
     Status (heap s job) <> JobStatusDone /\
     only_changed s (final o) job /\
     (heap (final o) job =
        set_Background false (set_Status JobStatusRunning (heap s job)) /\
      o = Blocks (final o) \/
      exists t,
        heap (final o) job =
          set_EndTime (Some t)
            (set_Status JobStatusDone
               (set_Background false (set_Status JobStatusRunning (heap s job)))) /\
        o = Returns None (final o))).
Proof.
  cbv zeta.
  destruct (jobs (jm s) !! jobID) as [job|] eqn:Hjob.
  2: { rewrite BringToForeground_not_found by assumption. cbn. auto. }
  destruct (String.eqb_spec (Status (heap s job)) JobStatusDone) as [Hd|Hd].
  { rewrite (BringToForeground_done os jobID s job) by assumption. cbn. auto. }
  destruct (live_process (heap s job)) as [[c p]|] eqn:Hlive.
  2: { destruct (BringToForeground_no_process os jobID s job Hjob Hd Hlive)
         as (s1 & Hrun & Hh & Hj & Hc & _).
       rewrite Hrun. cbn. auto. }
  destruct (String.eqb_spec (Status (heap s job)) JobStatusStopped) as [Hs|Hs].
  - destruct (os_signal os (trace s ++ [MsgBringing (heap s job)]) p SIGCONT)
      as [err|] eqn:Hsig.
    + destruct (BringToForeground_failed os jobID s job c p err Hjob Hs Hlive Hsig)
        as (s1 & Hrun & [Hh Hj] & _).
      rewrite Hrun. cbn. rewrite Hj. auto.
    + destruct (BringToForeground_reaches_wait os jobID s job c p Hjob Hd Hlive)
        as (s1 & Hrec & Hoth & Hj & _ & Hw); [now intros _|].
      destruct (os_wait os (trace s1) c) as [w|].
      * destruct Hw as (s2 & t & Hrun & Hrec2 & Hoth2 & Hdel & Hc & _).
        rewrite Hrun. cbn. split; [assumption|]. split; [auto|].
        right. exists job. split; [reflexivity|]. do 2 (split; [assumption|]).
        right. exists t. rewrite Hrec2, Hrec. auto.
      * rewrite Hw. cbn. rewrite Hj. split; [reflexivity|]. split; [auto|].
        right. exists job. split; [reflexivity|]. do 2 (split; [assumption|]). auto.
  - destruct (BringToForeground_reaches_wait os jobID s job c p Hjob Hd Hlive)
      as (s1 & Hrec & Hoth & Hj & _ & Hw); [intros E; now destruct (Hs E)|].
    destruct (os_wait os (trace s1) c) as [w|].
    + destruct Hw as (s2 & t & Hrun & Hrec2 & Hoth2 & Hdel & Hc & _).
      rewrite Hrun. cbn. split; [assumption|]. split; [auto|].
      right. exists job. split; [reflexivity|]. do 2 (split; [assumption|]).
      right. exists t. rewrite Hrec2, Hrec. auto.
    + rewrite Hw. cbn. rewrite Hj. split; [reflexivity|]. split; [auto|].
      right. exists job. split; [reflexivity|]. do 2 (split; [assumption|]). auto.
Qed.

Lemma only_changed_frozen s s' job :
  Status (heap s job) <> JobStatusDone -> only_changed s s' job -> done_frozen s s'.
Proof.
  intros Hnd Hoth l Hl. apply Hoth. intros ->. now apply Hnd.
Qed.

Lemma same_heap_frozen s s' : heap s' = heap s -> done_frozen s s'.
Proof. intros H l _. now rewrite H. Qed.

(** X1.  [Done] is terminal: whatever [BringToForeground],
    [ResumeInBackground] or [KillJob] is asked and however the call
    ends, a record that was [Done] before is the same afterwards. *)
Theorem done_is_terminal jobID s :
  done_frozen s (final (BringToForeground os jobID s)) /\
  done_frozen s (final (ResumeInBackground os jobID s)) /\
  done_frozen s (final (KillJob os jobID s)).
Proof.
  split; [|split].
  - destruct (BringToForeground_outcome jobID s) as (_ & _ & [H | (job & _ & Hnd & Hoth & _)]).
    + now apply same_heap_frozen.
    + now apply (only_changed_frozen s _ job).
  - destruct (ResumeInBackground_outcome jobID s)
      as (r & s' & -> & _ & [H | (job & _ & Hs & _ & Hoth & _)]); cbn [final].
    + now apply same_heap_frozen.
    + apply (only_changed_frozen s _ job); [|assumption]. now rewrite Hs.
  - destruct (KillJob_outcome jobID s)
      as (r & s' & -> & _ & [H | (job & t & _ & Hnd & _ & Hoth & _)]); cbn [final].
    + now apply same_heap_frozen.
    + now apply (only_changed_frozen s _ job).
Qed.

(** X2.  [KillJob] and [ResumeInBackground] always return and never
    change the table or the counter: a killed job stays in the table.
    [BringToForeground] never changes the counter and removes at most the
    id it was given, and that only when it returns without error. *)
Theorem only_foreground_removes jobID s :
  (exists r s', KillJob os jobID s = Returns r s' /\ jm s' = jm s) /\
  (exists r s', ResumeInBackground os jobID s = Returns r s' /\ jm s' = jm s) /\
  jobCounter (jm (final (BringToForeground os jobID s))) = jobCounter (jm s) /\
  (jobs (jm (final (BringToForeground os jobID s))) = jobs (jm s) \/
   jobs (jm (final (BringToForeground os jobID s))) = delete jobID (jobs (jm s)) /\
   BringToForeground os jobID s =
     Returns None (final (BringToForeground os jobID s))).
Proof.
  split; [|split].
  - destruct (KillJob_outcome jobID s) as (r & s' & H & Hj & _). eauto.
  - destruct (ResumeInBackground_outcome jobID s) as (r & s' & H & Hj & _). eauto.
  - destruct (BringToForeground_outcome jobID s) as (Hc & Hj & _). now split.
Qed.

Lemma ended_after_write s s' job J :
  ended_iff_done s ->
  Status (heap s job) <> JobStatusDone ->
  heap s' job = J -> only_changed s s' job ->
  (EndTime J <> None <-> Status J = JobStatusDone) ->
  ended_iff_done s'.
Proof.
  intros Hinv Hnd Hrec Hoth HJ l. destruct (Nat.eq_dec l job) as [->|Hne].
  - now rewrite Hrec.
  - rewrite (Hoth l Hne). apply Hinv.
Qed.

(** X3.  If every record has its [EndTime] set exactly when it is
    [Done], this still holds however [BringToForeground],
    [ResumeInBackground] or [KillJob] ends, also while the caller is
    blocked in the foreground wait. *)
Theorem end_time_marks_done jobID s :
  ended_iff_done s ->
  ended_iff_done (final (BringToForeground os jobID s)) /\
  ended_iff_done (final (ResumeInBackground os jobID s)) /\
  ended_iff_done (final (KillJob os jobID s)).
Proof.
  intros Hinv.
  assert (Hnone : forall job, Status (heap s job) <> JobStatusDone ->
                              EndTime (heap s job) = None).
  { intros job Hnd. destruct (EndTime (heap s job)) as [t|] eqn:He; [|reflexivity].
    destruct Hnd. apply Hinv. now rewrite He. }
  split; [|split].
  - destruct (BringToForeground_outcome jobID s)
      as (_ & _ & [H | (job & _ & Hnd & Hoth & [[Hrec _] | (t & Hrec & _)])]).
    + intros l. rewrite H. apply Hinv.
    + apply (ended_after_write s _ job _ Hinv Hnd Hrec Hoth). cbn.
      rewrite (Hnone job Hnd). split; [tauto | discriminate].
    + apply (ended_after_write s _ job _ Hinv Hnd Hrec Hoth). cbn.
      split; [reflexivity | discriminate].
  - destruct (ResumeInBackground_outcome jobID s)
      as (r & s' & -> & _ & [H | (job & _ & Hs & Hrec & Hoth & _)]); cbn [final].
    + intros l. rewrite H. apply Hinv.
    + assert (Hnd : Status (heap s job) <> JobStatusDone) by now rewrite Hs.
      apply (ended_after_write s _ job _ Hinv Hnd Hrec Hoth). cbn.
      rewrite (Hnone job Hnd). split; [tauto | discriminate].
  - destruct (KillJob_outcome jobID s)
      as (r & s' & -> & _ & [H | (job & t & _ & Hnd & Hrec & Hoth & _)]); cbn [final].
    + intros l. rewrite H. apply Hinv.
    + apply (ended_after_write s _ job _ Hinv Hnd Hrec Hoth). cbn.
      split; [reflexivity | discriminate].
Qed.

End Effects.

(** ** Killing, cleaning up and listing *)

Section Cleanup.

Variable os : OS.

Lemma swept_again (h : loc -> Job) (m : gmap Z loc) :
  let m' := swept h m (map_to_list m) in
  swept h m' (map_to_list m') = m'.
Proof.
  cbv zeta. apply map_eq. intros id. apply option_eq. intros job.
  rewrite swept_all by reflexivity. rewrite swept_all by reflexivity. tauto.
Qed.

(** X4.  Cleaning up twice is cleaning up once: after
    [CleanupCompletedJobs] the table holds no [Done] job and a second
    call changes nothing. *)
Theorem cleanup_is_idempotent s :
  exists s',
    CleanupCompletedJobs s = Returns tt s' /\
    CleanupCompletedJobs s' = Returns tt s' /\
    forall id job, jobs (jm s') !! id = Some job ->
                   Status (heap s' job) <> JobStatusDone.
Proof.
  eexists. split; [apply CleanupCompletedJobs_run|]. split.
  - rewrite CleanupCompletedJobs_run. cbn. now rewrite swept_again.
  - cbn. intros id job H. apply swept_all in H; [tauto | reflexivity].
Qed.

(** X5.  A job that is killed (the signal delivered) is gone after the
    next clean-up, together with the jobs that were [Done] already; every
    other job stays. *)
Theorem kill_then_cleanup_removes jobID s job c p :
  jobs (jm s) !! jobID = Some job ->
  Status (heap s job) <> JobStatusDone ->
  live_process (heap s job) = Some (c, p) ->
  os_signal os (trace s ++ [MsgTerminating (heap s job)]) p SIGKILL = None ->
  exists s1 s2,
    KillJob os jobID s = Returns None s1 /\
    CleanupCompletedJobs s1 = Returns tt s2 /\
    jobs (jm s2) !! jobID = None /\
    forall id' job',
      jobs (jm s2) !! id' = Some job' <->
      jobs (jm s) !! id' = Some job' /\ job' <> job /\
      Status (heap s job') <> JobStatusDone.
Proof.
  intros Hjob Hnd Hlive Hsig.
  destruct (KillJob_delivered os jobID s job c p Hjob Hnd Hlive Hsig)
    as (s1 & t & Hrun & Hjm & Hrec & Hoth & _).
  exists s1. eexists. split; [assumption|].
  split; [apply CleanupCompletedJobs_run|]. cbn. rewrite Hjm.
  assert (Hkeep : forall id' job',
    swept (heap s1) (jobs (jm s)) (map_to_list (jobs (jm s))) !! id' = Some job' <->
    jobs (jm s) !! id' = Some job' /\ job' <> job /\
    Status (heap s job') <> JobStatusDone).
  { intros id' job'. rewrite swept_all by reflexivity.
    destruct (Nat.eq_dec job' job) as [->|Hne].
    - rewrite Hrec. cbn. intuition congruence.
    - rewrite (Hoth job' Hne). tauto. }
  split; [|assumption].
  destruct (swept _ _ _ !! jobID) as [job'|] eqn:Hl; [|reflexivity].
  apply Hkeep in Hl as (Hl & Hne & _). congruence.
Qed.

End Cleanup.

Section Listing.

Variable os : OS.
Variable Sub : Z -> Z -> Z.
Variable Round : Z -> Z -> Z.
Variable range_order : list Event -> gmap Z loc -> list (Z * loc).

Lemma list_range_run entries s :
  exists times,
    length times = length entries /\
    list_range os Sub Round entries s =
    Returns tt (mkState (heap s) (next_loc s) (jm s)
                        (trace s ++ listing Sub Round (heap s) entries times)).
Proof.
  revert s. induction entries as [|[id job] rest IH]; intros s.
  - exists []. split; [reflexivity|]. unfold listing. cbn.
    rewrite app_nil_r. now destruct s.
  - cbn [list_range]. unfold bind at 1, load. cbv beta.
    unfold bind at 1, now. cbv beta zeta.
    unfold bind at 1, Printf, emit. cbv beta.
    match goal with
    | |- context [list_range os Sub Round rest ?s1] =>
      destruct (IH s1) as (times & Hlen & Hrun); rewrite Hrun
    end.
    exists (os_now os (trace s) :: times).
    split; [cbn; now rewrite Hlen|]. cbn [heap next_loc jm trace].
    unfold listing, job_line. cbn [zip_with concat snd].
    now rewrite <- !app_assoc.
Qed.

Lemma ListJobs_run s :
  (forall tr m, range_order tr m ≡ₚ map_to_list m) ->
  exists times,
    length times = size (jobs (jm s)) /\
    ListJobs os Sub Round range_order s =
    Returns tt
      (mkState (heap s) (next_loc s) (jm s)
         (trace s ++
          (if decide (jobs (jm s) = ∅) then [EvPrintln "No active jobs"]
           else EvPrintln "Active jobs:" ::
                listing Sub Round (heap s)
                  (range_order (trace s ++ [EvPrintln "Active jobs:"]) (jobs (jm s)))
                  times))).
Proof.
  intros Horder. unfold ListJobs, bind at 1, get_jobs.
  destruct (size (jobs (jm s)) =? 0)%nat eqn:Hsz.
  - apply Nat.eqb_eq in Hsz. exists []. split; [now rewrite Hsz|].
    apply map_size_empty_iff in Hsz. now rewrite decide_True by assumption.
  - apply Nat.eqb_neq in Hsz.
    assert (Hne : jobs (jm s) <> ∅) by now apply map_size_non_empty_iff.
    unfold bind at 1, Println, emit. unfold bind at 1, range_jobs.
    cbn [heap next_loc jm trace].
    match goal with
    | |- context [list_range os Sub Round ?es ?s1] =>
      destruct (list_range_run es s1) as (times & Hlen & Hrun); rewrite Hrun
    end.
    exists times. split; [now rewrite Hlen, Horder, length_map_to_list|].
    rewrite decide_False by assumption.
    cbn [heap next_loc jm trace]. now rewrite <- app_assoc.
Qed.

(** X6.  The [jobs] built-in never fails and never blocks.  It drops
    the [Done] jobs from the table and changes no record; then it prints
    [No active jobs] when no job is left, and otherwise a header and,
    after reading the clock once for each, one line for every job that is
    left, none of which is [Done].  The lines come in the order in which
    the loop of this run visits the table, which is some arrangement of
    the jobs that are left, each listed once. *)
Theorem jobs_lists_the_live_jobs args s :
  (forall tr m, range_order tr m ≡ₚ map_to_list m) ->
  exists s' times order,
    handleJobs os Sub Round range_order args s = Returns None s' /\
    heap s' = heap s /\
    jobCounter (jm s') = jobCounter (jm s) /\
    (forall id job,
       jobs (jm s') !! id = Some job <->
       jobs (jm s) !! id = Some job /\ Status (heap s job) <> JobStatusDone) /\
    length times = size (jobs (jm s')) /\
    order ≡ₚ map_to_list (jobs (jm s')) /\
    trace s' =
      trace s ++
      (if decide (jobs (jm s') = ∅) then [EvPrintln "No active jobs"]
       else EvPrintln "Active jobs:" :: listing Sub Round (heap s) order times).
Proof.
  intros Horder.
  destruct (ListJobs_run
              (mkState (heap s) (next_loc s)
                 (mkJM (swept (heap s) (jobs (jm s)) (map_to_list (jobs (jm s))))
                       (jobCounter (jm s)))
                 (trace s)) Horder) as (times & Hlen & Hrun).
  eexists _, times, _. split.
  { unfold handleJobs, bind. rewrite CleanupCompletedJobs_run, Hrun. reflexivity. }
  cbn [heap next_loc jm trace jobs jobCounter] in *.
  split; [reflexivity|]. split; [reflexivity|].
  split; [intros id job; now apply swept_all|].
  split; [exact Hlen|]. split; [apply Horder | reflexivity].
Qed.

End Listing.

(** ** The kill built-in *)

Section KillBuiltin.

Variable os : OS.
Variable Atoi : string -> option Z.
Variable Sprintf : string -> list fmtarg -> string.
Variable Getpid : Z.
Variable FindProcess : list Event -> Z -> option error.

Lemma delivered_count_pos (evs : list Event) :
  (0 < length (List.filter delivered_kill evs))%nat <->
  Exists (fun e => delivered_kill e = true) evs.
Proof.
  induction evs as [|e evs IH]; cbn [List.filter].
  - split; [cbn; lia | intros H; inversion H].
  - destruct (delivered_kill e) eqn:He.
    + split; [intros _; now left | cbn; lia].
    + rewrite IH. split; [now right|]. intros H. inversion H; subst; [congruence | assumption].
Qed.

(** The loop: every operand adds an error or a kill, the signals it
    sends are allowed ones, and only the trace grows. *)
Lemma kill_range_run (all operands : list string) (errors : list string)
    (killed : Z) (s : State) :
  (forall x, In x operands -> In x all) ->
  exists errors' killed' s' evs,
    kill_range os Atoi Sprintf Getpid FindProcess operands errors killed s =
      Returns (errors', killed') s' /\
    heap s' = heap s /\ jm s' = jm s /\ next_loc s' = next_loc s /\
    trace s' = trace s ++ evs /\
    Forall (kill_allowed Atoi Getpid all) evs /\
    killed' = killed + Z.of_nat (length (List.filter delivered_kill evs)) /\
    Z.of_nat (length errors') + killed' =
      Z.of_nat (length errors) + killed + Z.of_nat (length operands).
Proof.
  revert errors killed s.
  induction operands as [|pidStr rest IH]; intros errors killed s Hall.
  - exists errors, killed, s, []. cbn. rewrite app_nil_r.
    repeat split; try constructor; lia.
  - assert (Hrest : forall x, In x rest -> In x all) by (intros x Hx; apply Hall; now right).
    assert (Hskip : forall msg,
      exists errors' killed' s' evs,
        kill_range os Atoi Sprintf Getpid FindProcess rest (errors ++ [msg]) killed s =
          Returns (errors', killed') s' /\
        heap s' = heap s /\ jm s' = jm s /\ next_loc s' = next_loc s /\
        trace s' = trace s ++ evs /\
        Forall (kill_allowed Atoi Getpid all) evs /\
        killed' = killed + Z.of_nat (length (List.filter delivered_kill evs)) /\
        Z.of_nat (length errors') + killed' =
          Z.of_nat (length errors) + killed + Z.of_nat (length (pidStr :: rest))).
    { intros msg.
      destruct (IH (errors ++ [msg]) killed s Hrest)
        as (errors' & killed' & s' & evs & Hrun & Hh & Hj & Hn & Htr & Hok & Hk & Hlen).
      exists errors', killed', s', evs. repeat (split; [assumption|]).
      rewrite length_app in Hlen. cbn [length] in *. lia. }
    cbn [kill_range].
    destruct (String.eqb pidStr ""); [apply Hskip|].
    destruct (Atoi pidStr) as [pid|] eqn:Hpid; [|apply Hskip].
    destruct (pid <=? 0) eqn:Hpos; [apply Hskip|]. apply Z.leb_gt in Hpos.
    destruct (pid =? 1) eqn:H1; [apply Hskip|]. apply Z.eqb_neq in H1.
    destruct (pid =? Getpid) eqn:Hself; [apply Hskip|]. apply Z.eqb_neq in Hself.
    unfold bind at 1. cbv beta.
    destruct (FindProcess (trace s) pid) as [ferr|]; [apply Hskip|].
    unfold bind at 1, signal. cbv beta zeta.
    assert (Hsig : forall res, kill_allowed Atoi Getpid all
                                 (EvSignal (Build_OsProcess pid) SIGKILL res)).
    { intros res. cbn. repeat split; try lia; try assumption.
      exists pidStr. split; [apply Hall; now left | assumption]. }
    destruct (os_signal os (trace s) (Build_OsProcess pid) SIGKILL) as [kerr|] eqn:Hk.
    + destruct (IH (errors ++ [Sprintf "failed to kill process %d: %v"
                                       [AInt pid; AErr kerr]]) killed
                   (mkState (heap s) (next_loc s) (jm s)
                            (trace s ++ [EvSignal (Build_OsProcess pid) SIGKILL (Some kerr)]))
                   Hrest)
        as (errors' & killed' & s' & evs & Hrun & Hh & Hj & Hn & Htr & Hok & Hkd & Hlen).
      exists errors', killed', s',
        (EvSignal (Build_OsProcess pid) SIGKILL (Some kerr) :: evs).
      split; [exact Hrun|]. cbn [heap jm next_loc trace] in *.
      repeat (split; [assumption|]).
      split; [now rewrite Htr, <- app_assoc|].
      split; [constructor; [apply Hsig | assumption]|].
      cbn [List.filter delivered_kill]. split; [assumption|].
      rewrite length_app in Hlen. cbn [length] in *. lia.
    + unfold bind at 1, Printf, emit. cbv beta.
      destruct (IH errors (killed + 1)
                   (mkState (heap s) (next_loc s) (jm s)
                      ((trace s ++ [EvSignal (Build_OsProcess pid) SIGKILL None]) ++
                       [EvPrintf "Process %d killed\n" [AInt pid]]))
                   Hrest)
        as (errors' & killed' & s' & evs & Hrun & Hh & Hj & Hn & Htr & Hok & Hkd & Hlen).
      exists errors', killed', s',
        (EvSignal (Build_OsProcess pid) SIGKILL None ::
         EvPrintf "Process %d killed\n" [AInt pid] :: evs).
      split; [exact Hrun|]. cbn [heap jm next_loc trace] in *.
      repeat (split; [assumption|]).
      split; [now rewrite Htr, <- !app_assoc|].
      split; [constructor; [apply Hsig | constructor; [exact I | assumption]]|].
      cbn [List.filter delivered_kill length]. split; [lia|]. lia.
Qed.

(** The whole built-in. *)
Lemma handleKill_run (args : list string) (s : State) :
  exists r s' evs,
    handleKill os Atoi Sprintf Getpid FindProcess args s = Returns r s' /\
    heap s' = heap s /\ jm s' = jm s /\ next_loc s' = next_loc s /\
    trace s' = trace s ++ evs /\
    Forall (kill_allowed Atoi Getpid (drop 1 args)) evs /\
    (r = None <->
     (2 <= length args)%nat /\ Exists (fun e => delivered_kill e = true) evs).
Proof.
  unfold handleKill. destruct (length args <? 2)%nat eqn:Hlen.
  - apply Nat.ltb_lt in Hlen. exists (Some (Errorf "kill: missing PID\nUsage: kill [pid1] [pid2] ..." [])), s, [].
    rewrite app_nil_r. repeat split; try constructor; try discriminate; try lia.
  - apply Nat.ltb_ge in Hlen.
    destruct (kill_range_run (drop 1 args) (drop 1 args) [] 0 s (fun x H => H))
      as (errors' & killed' & s' & evs & Hrun & Hh & Hj & Hn & Htr & Hok & Hk & Hcount).
    assert (Hops : (0 < length (drop 1 args))%nat) by (rewrite length_drop; lia).
    cbn [length] in Hcount.
    pose proof (delivered_count_pos evs) as Hpos.
    unfold bind at 1. rewrite Hrun.
    destruct (0 <? length errors')%nat eqn:Herr.
    + destruct (killed' =? 0) eqn:Hz.
      * apply Z.eqb_eq in Hz.
        exists (Some (Errorf "kill: %s" [AStr (String.concat "; " errors')])), s', evs.
        split; [reflexivity|]. do 5 (split; [assumption|]).
        split; [discriminate|].
        intros [_ Hex]. apply Hpos in Hex. lia.
      * apply Z.eqb_neq in Hz.
        eexists None, _, (evs ++ [EvPrintf "kill: warnings: %s\n"
                                    [AStr (String.concat "; " errors')]]).
        split; [reflexivity|]. cbn [heap jm next_loc trace].
        do 3 (split; [assumption|]).
        split; [now rewrite Htr, <- app_assoc|].
        split; [apply Forall_app; split; [assumption | repeat constructor]|].
        split; [|reflexivity]. intros _. split; [assumption|].
        apply Exists_app. left. apply Hpos. lia.
    + apply Nat.ltb_ge in Herr.
      exists None, s', evs. split; [reflexivity|]. do 5 (split; [assumption|]).
      split; [|reflexivity]. intros _. split; [assumption|].
      apply Hpos. lia.
Qed.

(** X7.  The [kill] built-in always returns, changes neither a job
    record nor the job table (also when the process is one of the
    shell's jobs), and every signal it sends is a kill signal to a
    process id above 1, other than the shell's own, that [Atoi] reads
    from one of the operands. *)
Theorem kill_builtin_spares_init_shell_and_table (args : list string) (s : State) :
  exists r s' evs,
    handleKill os Atoi Sprintf Getpid FindProcess args s = Returns r s' /\
    heap s' = heap s /\ jm s' = jm s /\
    trace s' = trace s ++ evs /\
    Forall (kill_allowed Atoi Getpid (drop 1 args)) evs.
Proof.
  destruct (handleKill_run args s) as (r & s' & evs & H & Hh & Hj & _ & Htr & Hok & _).
  exists r, s', evs. auto.
Qed.

(** X8.  The [kill] built-in reports success exactly when it has an
    operand and at least one kill signal was delivered; the failures
    beside a delivered signal are only printed. *)
Theorem kill_builtin_succeeds_iff_one_killed (args : list string) (s : State) :
  exists r s' evs,
    handleKill os Atoi Sprintf Getpid FindProcess args s = Returns r s' /\
    trace s' = trace s ++ evs /\
    (r = None <->
     (2 <= length args)%nat /\ Exists (fun e => delivered_kill e = true) evs).
Proof.
  destruct (handleKill_run args s) as (r & s' & evs & H & _ & _ & _ & Htr & _ & Hr).
  exists r, s', evs. auto.
Qed.

End KillBuiltin.

(** ** Shutdown *)

Section Shutdown.

Variable os : OS.
Variable Sleep : Z -> M unit.

(** [time.Sleep] returns and leaves the job records and the table alone. *)
Hypothesis Sleep_returns :
  forall d s, exists s', Sleep d s = Returns tt s' /\ heap s' = heap s /\ jm s' = jm s.

Lemma done_frozen_trans s1 s2 s3 :
  done_frozen s1 s2 -> done_frozen s2 s3 -> done_frozen s1 s3.
Proof.
  intros H12 H23 l Hl. rewrite <- (H12 l Hl). apply H23. now rewrite (H12 l Hl).
Qed.

Lemma KillJob_frame jobID s :
  exists r s', KillJob os jobID s = Returns r s' /\ jm s' = jm s /\ done_frozen s s'.
Proof.
  destruct (KillJob_outcome os jobID s)
    as (r & s' & Hrun & Hj & [H | (job & t & _ & Hnd & _ & Hoth & _)]);
    exists r, s'; repeat (split; [assumption|]).
  - now apply same_heap_frozen.
  - now apply (only_changed_frozen s s' job).
Qed.

Lemma shutdown_range_frame (snapshot : list loc) (s : State) :
  exists s',
    shutdown_range os snapshot s = Returns tt s' /\
    jm s' = jm s /\ done_frozen s s'.
Proof.
  revert s. induction snapshot as [|job rest IH]; intros s.
  - exists s. split; [reflexivity|]. split; [reflexivity|]. now intros l _.
  - cbn [shutdown_range]. cbv [bind load Printf emit ret].
    destruct (String.eqb (Status (heap s job)) "Done"); cbn [negb].
    + apply IH.
    + match goal with
      | |- context [KillJob os ?id ?s1] =>
        destruct (KillJob_frame id s1) as (r & s2 & Hrun & Hj & Hfr); rewrite Hrun
      end.
      destruct (IH s2) as (s' & Hrest & Hj' & Hfr').
      exists s'. split; [assumption|]. split; [now rewrite Hj', Hj|].
      apply (done_frozen_trans s s2 s'); [|assumption].
      intros l Hl. now apply Hfr.
Qed.

(** X9.  [shutdown] always returns: it never waits for a job.  It
    removes no job from the table and changes no record that is [Done]. *)
Theorem shutdown_returns_and_keeps_table (s : State) :
  exists s',
    shutdown os Sleep s = Returns tt s' /\
    jm s' = jm s /\ done_frozen s s'.
Proof.
  unfold shutdown. cbv [bind Println Printf emit GetAllJobs get_jobs ret].
  cbn [jm trace heap next_loc].
  destruct (0 <? length (map snd (map_to_list (jobs (jm s)))))%nat.
  - match goal with
    | |- context [shutdown_range os ?js ?s1] =>
      destruct (shutdown_range_frame js s1) as (s2 & Hrun & Hj & Hfr); rewrite Hrun
    end.
    destruct (Sleep_returns (100 * time_Millisecond) s2) as (s3 & Hsl & Hh3 & Hj3).
    rewrite Hsl. eexists. split; [reflexivity|]. cbn.
    split; [now rewrite Hj3, Hj|].
    intros l Hl. rewrite Hh3. now apply Hfr.
  - eexists. split; [reflexivity|]. cbn.
    split; [reflexivity|]. now intros l _.
Qed.

(** The system delivers every kill signal. *)
Hypothesis kill_delivered : forall tr p, os_signal os tr p SIGKILL = None.

Lemma shutdown_range_kills (snapshot : list loc) (s : State) :
  table_consistent s ->
  (forall l, In l snapshot -> exists id, jobs (jm s) !! id = Some l) ->
  exists s',
    shutdown_range os snapshot s = Returns tt s' /\
    jm s' = jm s /\
    table_consistent s' /\
    (forall l, In l snapshot -> Status (heap s' l) = JobStatusDone) /\
    (forall l, heap s' l = heap s l \/
               Status (heap s l) <> JobStatusDone /\
               exists t, heap s' l =
                         set_EndTime (Some t) (set_Status JobStatusDone (heap s l))).
Proof.
  revert s. induction snapshot as [|job rest IH]; intros s Hok Hin.
  - exists s. split; [reflexivity|]. split; [reflexivity|]. split; [assumption|].
    split; [intros l [] | now left].
  - cbn [shutdown_range]. cbv [bind load Printf emit ret].
    destruct (String.eqb_spec (Status (heap s job)) "Done") as [Hd|Hd]; cbn [negb].
    + destruct (IH s Hok) as (s' & Hrun & Hj & Hok' & Hdone & Hrec).
      { intros l Hl. apply Hin. now right. }
      exists s'. do 3 (split; [assumption|]). split; [|assumption].
      intros l [<- | Hl]; [|now apply Hdone].
      destruct (Hrec job) as [-> | [Hnd _]]; [assumption | now destruct Hnd].
    + destruct (Hin job (or_introl eq_refl)) as [id Hid].
      destruct (Hok id job Hid) as [HID Hlive]. specialize (Hlive Hd).
      destruct (live_process (heap s job)) as [[c p]|] eqn:Hlp; [|now destruct Hlive].
      match goal with
      | |- context [KillJob os _ ?s1] =>
        destruct (KillJob_delivered os (ID (heap s job)) s1 job c p)
          as (s2 & t & Hrun & Hj2 & Hrec2 & Hoth2 & _);
          [now rewrite HID | assumption | assumption | apply kill_delivered |];
        rewrite Hrun
      end.
      cbn [heap jm] in *.
      assert (Hok2 : table_consistent s2).
      { intros id' job' Hl. rewrite Hj2 in Hl. destruct (Hok id' job' Hl) as [HID' Hlive'].
        destruct (Nat.eq_dec job' job) as [->|Hne].
        - rewrite Hrec2. cbn. split; [assumption|]. intros Hx. now destruct Hx.
        - rewrite (Hoth2 job' Hne). now split. }
      destruct (IH s2 Hok2) as (s' & Hrest & Hj & Hok' & Hdone & Hrec).
      { intros l Hl. rewrite Hj2. apply Hin. now right. }
      exists s'. split; [assumption|]. split; [now rewrite Hj, Hj2|].
      split; [assumption|]. split.
      * intros l [<- | Hl]; [|now apply Hdone].
        destruct (Hrec job) as [-> | [Hnd _]].
        -- now rewrite Hrec2.
        -- destruct Hnd. now rewrite Hrec2.
      * intros l. destruct (Nat.eq_dec l job) as [->|Hne].
        -- right. split; [assumption|]. exists t.
           destruct (Hrec job) as [-> | [Hnd _]]; [assumption|].
           destruct Hnd. now rewrite Hrec2.
        -- specialize (Hoth2 l Hne). cbn [heap] in Hoth2. rewrite <- Hoth2. apply Hrec.
Qed.

(** X10.  On a system that delivers every kill signal, and for a table
    whose records carry the id they are stored under and hold a started
    process unless they are [Done], [shutdown] leaves every job of the
    table [Done]: the jobs that were [Done] as they were, the others with
    their status and [EndTime] set; no job is removed. *)
Theorem shutdown_kills_every_job (s : State) :
  table_consistent s ->
  exists s',
    shutdown os Sleep s = Returns tt s' /\
    jm s' = jm s /\
    forall id job,
      jobs (jm s) !! id = Some job ->
      Status (heap s' job) = JobStatusDone /\
      (heap s' job = heap s job \/
       Status (heap s job) <> JobStatusDone /\
       exists t, heap s' job =
                 set_EndTime (Some t) (set_Status JobStatusDone (heap s job))).
Proof.
  intros Hok.
  assert (Hsnap : forall id job, jobs (jm s) !! id = Some job ->
                                 In job (map snd (map_to_list (jobs (jm s))))).
  { intros id job Hl. apply in_map_iff. exists (id, job). split; [reflexivity|].
    apply list_elem_of_In. now apply elem_of_map_to_list. }
  unfold shutdown. cbv [bind Println Printf emit GetAllJobs get_jobs ret].
  cbn [jm trace heap next_loc].
  destruct (0 <? length (map snd (map_to_list (jobs (jm s)))))%nat eqn:Hlen.
  - match goal with
    | |- context [shutdown_range os ?js ?s1] =>
      destruct (shutdown_range_kills js s1) as (s2 & Hrun & Hj & _ & Hdone & Hrec)
    end.
    + exact Hok.
    + intros l Hl. apply in_map_iff in Hl as ([id l'] & <- & Hl).
      exists id. apply list_elem_of_In in Hl. now apply elem_of_map_to_list.
    + rewrite Hrun.
      destruct (Sleep_returns (100 * time_Millisecond) s2) as (s3 & Hsl & Hh3 & Hj3).
      rewrite Hsl. eexists. split; [reflexivity|]. cbn.
      split; [now rewrite Hj3, Hj|].
      intros id job Hl. rewrite Hh3. split; [apply Hdone; now apply (Hsnap id)|].
      apply Hrec.
  - apply Nat.ltb_ge in Hlen. eexists.
    split; [reflexivity|]. cbn. split; [reflexivity|].
    intros id job Hl. apply Hsnap in Hl.
    destruct (map snd (map_to_list (jobs (jm s)))); [destruct Hl | cbn in Hlen; lia].
Qed.

End Shutdown.

(** ** More about the tokenizer and the parser *)

Section Parser.

Variable TrimSpace : string -> string.

(** The tokens of a line are the words of a reading of the line as it
    is decoded. *)
Lemma tokenize_reading (input : string) :
  exists its, Forall item_ok its /\ tokenize input = nonempty_words its.
Proof.
  destruct (lex_reads (sanitize input) None) as [Hok Hr]; [constructor|].
  rewrite app_empty_l in Hr.
  exists (close (lex (sanitize input) None).1 (lex (sanitize input) None).2).
  split; [assumption|]. now apply tokenize_read.
Qed.

Lemma tokenize_tokens_nonempty_aux (input : string) :
  Forall (fun token : string => token <> "") (tokenize input).
Proof.
  destruct (tokenize_reading input) as (its & _ & ->). unfold nonempty_words.
  apply Forall_forall. intros w Hw. now apply list_elem_of_filter in Hw as [Hw _].
Qed.

(** X11.  [tokenize] never returns an empty token, whatever the line:
    an empty pair of quotes alone gives no token. *)
Theorem tokenize_tokens_are_not_empty (input : string) :
  Forall (fun token : string => token <> "") (tokenize input).
Proof. apply tokenize_tokens_nonempty_aux. Qed.

Lemma plain_items_read (s : string) :
  quote_free s = true ->
  Forall item_ok (plain_items s) /\ render (plain_items s) = s /\
  words (plain_items s) = split_blanks s.
Proof.
  induction s as [|c s IH]; intros Hq; [repeat split; constructor|].
  cbn [quote_free] in Hq. apply andb_true_iff in Hq as [Hc Hq].
  apply negb_true_iff in Hc. destruct (IH Hq) as (Hok & Hr & Hw).
  cbn [plain_items split_blanks]. destruct (is_blank c) eqn:Hb.
  - split; [constructor; assumption|]. cbn [render render_item words].
    rewrite Hr, Hw. now split.
  - split; [constructor; [now split | assumption]|]. cbn [render render_item words text_of].
    rewrite Hr, Hw. split; [reflexivity|]. now destruct (split_blanks s).
Qed.

(** X12.  The loop reads the line as it is decoded rune by rune, a byte
    that begins no valid encoding being read as the replacement character.
    When the line so decoded has no quote character, [tokenize] is the
    split of the decoded line at spaces and tabs with the empty fields
    dropped; a line of bytes below 128 is decoded as it is, so there
    [tokenize] is that split of the line itself. *)
Theorem tokenize_without_quotes_splits_at_blanks (input : string) :
  quote_free (sanitize input) = true ->
  tokenize input =
    filter (fun w : string => w <> "") (split_blanks (sanitize input)) /\
  (ascii_only input = true ->
   tokenize input = filter (fun w : string => w <> "") (split_blanks input)).
Proof.
  intros Hq. destruct (plain_items_read (sanitize input) Hq) as (Hok & Hr & Hw).
  assert (H : tokenize input =
              filter (fun w : string => w <> "") (split_blanks (sanitize input))).
  { rewrite (tokenize_read input (plain_items (sanitize input)) None).
    - unfold close, nonempty_words. now rewrite app_nil_r, Hw.
    - unfold close. now rewrite app_nil_r.
    - cbn [render_open]. now rewrite app_empty_r. }
  split; [exact H|]. intros Ha. now rewrite H, sanitize_ascii.
Qed.

(** X13.  A command that [Parse] returns has at least one argument, its
    name is the first argument and is not empty, no argument is empty,
    its pipe list is the argument list alone, and it is marked as
    background exactly when the trimmed line ends in [&]; the arguments
    are the tokens of the trimmed line without that marker. *)
Theorem parse_gives_a_named_command (input : string) (p : ParsedCommand) :
  Parse TrimSpace input = Some p ->
  let line := TrimSpace input in
  parsed.Command p <> "" /\
  (exists operands, parsed.Args p = parsed.Command p :: operands) /\
  Forall (fun arg : string => arg <> "") (parsed.Args p) /\
  parsed.Pipes p = [parsed.Args p] /\
  parsed.Background p = HasSuffix line "&" /\
  parsed.Args p =
    tokenize (if HasSuffix line "&" then TrimSpace (TrimSuffix line "&") else line).
Proof.
  unfold Parse. cbv zeta.
  destruct (String.eqb (TrimSpace input) ""); [discriminate|].
  destruct (HasSuffix (TrimSpace input) "&").
  - pose proof (tokenize_tokens_nonempty_aux
                  (TrimSpace (TrimSuffix (TrimSpace input) "&"))) as Hne.
    destruct (tokenize _) as [|arg0 rest]; [discriminate|].
    intros [= <-]. cbn. apply Forall_cons in Hne as Hne'. destruct Hne' as [H0 _].
    repeat split; eauto.
  - pose proof (tokenize_tokens_nonempty_aux (TrimSpace input)) as Hne.
    destruct (tokenize _) as [|arg0 rest]; [discriminate|].
    intros [= <-]. cbn. apply Forall_cons in Hne as Hne'. destruct Hne' as [H0 _].
    repeat split; eauto.
Qed.

End Parser.

(** ** More about the dispatcher *)

Section Dispatcher.

Variable os : OS.
Variable TrimSpace : string -> string.
Variable Atoi : string -> option Z.
Variable other_builtin : string -> list string -> M (option error).

Lemma builtin_handled (name : string) :
  IsBuiltinCommand name = true <-> In name handled_names.
Proof.
  unfold IsBuiltinCommand. split.
  - destruct (builtins !! name) as [b|] eqn:Hl; [|discriminate].
    cbn. intros ->. apply elem_of_list_to_map_2 in Hl.
    repeat (apply elem_of_cons in Hl as [[= ->] | Hl]; [cbn; tauto|]).
    now apply elem_of_nil in Hl.
  - intros H. cbn in H.
    repeat (destruct H as [<- | H]; [reflexivity|]). destruct H.
Qed.

(** X14.  The table of [IsBuiltinCommand] and the [switch] of
    [HandleCommand] name the same sixteen commands: a name of the table
    is dispatched to its handler, and the unknown-built-in error is what
    every other non-empty name gets. *)
Theorem builtin_table_matches_the_switch (p : ParsedCommand) :
  (IsBuiltinCommand (parsed.Command p) = true <-> In (parsed.Command p) handled_names) /\
  (IsBuiltinCommand (parsed.Command p) = true ->
   HandleCommand os Atoi other_builtin (Some p) =
   if String.eqb (parsed.Command p) "fg" then handleFG os Atoi (parsed.Args p)
   else if String.eqb (parsed.Command p) "bg" then handleBG os Atoi (parsed.Args p)
   else other_builtin (parsed.Command p) (parsed.Args p)) /\
  (IsBuiltinCommand (parsed.Command p) = false -> parsed.Command p <> "" ->
   HandleCommand os Atoi other_builtin (Some p) =
   ret (Some (Errorf "unknown built-in command: %s" [AStr (parsed.Command p)]))).
Proof.
  split; [apply builtin_handled|]. split.
  - intros H%builtin_handled. unfold HandleCommand. cbn in H.
    repeat (destruct H as [<- | H]; [reflexivity|]). destruct H.
  - intros Hb Hne%String.eqb_neq. unfold HandleCommand. rewrite Hne.
    assert (Hnot : ~ In (parsed.Command p) handled_names).
    { intros H%builtin_handled. congruence. }
    destruct (String.eqb_spec (parsed.Command p) "fg") as [E|_].
    { destruct Hnot. rewrite E. cbn. tauto. }
    destruct (String.eqb_spec (parsed.Command p) "bg") as [E|_].
    { destruct Hnot. rewrite E. cbn. tauto. }
    destruct (existsb _ _) eqn:Hex; [|reflexivity].
    apply existsb_exists in Hex as (x & Hx & E). apply String.eqb_eq in E. subst x.
    destruct Hnot. cbn in Hx. cbn. tauto.
Qed.

Lemma GetAllJobs_length_zero s :
  (length (map snd (map_to_list (jobs (jm s)))) =? 0)%nat = true <-> jobs (jm s) = ∅.
Proof.
  rewrite Nat.eqb_eq, length_map, length_map_to_list. apply map_size_empty_iff.
Qed.

(** X15.  Given exactly one operand that is not empty and that [Atoi]
    reads as a positive number, on a table that is not empty, [fg] is
    [BringToForeground] and [bg] is [ResumeInBackground] of that number:
    the call reaches the job manager with the number read.  In every
    other case, that is whenever the arguments are not of that form or
    the table is empty, both return an error and leave the state as it
    is. *)
Theorem fg_bg_act_only_on_a_positive_id (args : list string) (s : State) :
  (forall name jobIDStr jobID,
     args = [name; jobIDStr] -> jobIDStr <> "" -> Atoi jobIDStr = Some jobID ->
     0 < jobID -> jobs (jm s) <> ∅ ->
     handleFG os Atoi args s = BringToForeground os jobID s /\
     handleBG os Atoi args s = ResumeInBackground os jobID s) /\
  ((forall name jobIDStr jobID,
      args = [name; jobIDStr] -> jobIDStr <> "" -> Atoi jobIDStr = Some jobID ->
      0 < jobID -> jobs (jm s) = ∅) ->
   (exists e, handleFG os Atoi args s = Returns (Some e) s) /\
   (exists e, handleBG os Atoi args s = Returns (Some e) s)).
Proof.
  split.
  - intros name jobIDStr jobID -> Hne Ha Hpos Hjobs.
    unfold handleFG, handleBG. cbn [length Nat.ltb Nat.leb nth].
    apply String.eqb_neq in Hne. rewrite Hne, Ha.
    apply Z.leb_gt in Hpos. rewrite Hpos.
    cbv [bind GetAllJobs get_jobs ret].
    destruct (length (map snd (map_to_list (jobs (jm s)))) =? 0)%nat eqn:Hlen.
    + apply GetAllJobs_length_zero in Hlen. contradiction.
    + split; reflexivity.
  - intros Hill.
    destruct args as [|name [|jobIDStr [|extra rest]]];
      try (split; eexists; reflexivity).
    unfold handleFG, handleBG. cbn [length Nat.ltb Nat.leb nth].
    destruct (String.eqb_spec jobIDStr "") as [E|Hne];
      [split; eexists; reflexivity|].
    destruct (Atoi jobIDStr) as [jobID|] eqn:Ha;
      [|split; eexists; reflexivity].
    destruct (jobID <=? 0) eqn:Hpos; [split; eexists; reflexivity|].
    apply Z.leb_gt in Hpos.
    pose proof (Hill name jobIDStr jobID eq_refl Hne Ha Hpos) as Hempty.
    apply GetAllJobs_length_zero in Hempty.
    cbv [bind GetAllJobs get_jobs ret]. rewrite Hempty.
    split; eexists; reflexivity.
Qed.

(** X16.  The background marker has no effect: two lines that parse to
    the same name and arguments are processed alike, whether or not
    either ends in [&]. *)
Theorem background_marker_has_no_effect (input1 input2 : string)
    (p1 p2 : ParsedCommand) (s : State) :
  Parse TrimSpace input1 = Some p1 ->
  Parse TrimSpace input2 = Some p2 ->
  parsed.Command p1 = parsed.Command p2 ->
  parsed.Args p1 = parsed.Args p2 ->
  processInput os TrimSpace Atoi other_builtin input1 s =
  processInput os TrimSpace Atoi other_builtin input2 s.
Proof.
  intros H1 H2 Hc Ha. unfold processInput. rewrite H1, H2.
  unfold ValidateCommand, HandleCommand. now rewrite Hc, Ha.
Qed.

End Dispatcher.

(** ** Instances of the further properties *)

(** X3, an instance: a table of running jobs none of which has ended,
    after a delivered kill. *)
Lemma end_time_marks_done_witness :
  ended_iff_done (final (KillJob os_fair 1 (one_job JobStatusRunning (Some sleep_cmd)))).
Proof.
  assert (H : ended_iff_done (one_job JobStatusRunning (Some sleep_cmd))).
  { intros l. cbn. split; [intros H; now destruct H | discriminate]. }
  apply (end_time_marks_done os_fair 1 _ H).
Defined.

(** X5, an instance: the one running job of a table, killed and cleaned
    up. *)
Lemma kill_then_cleanup_removes_witness :
  exists s1 s2,
    KillJob os_fair 1 (one_job JobStatusRunning (Some sleep_cmd)) = Returns None s1 /\
    CleanupCompletedJobs s1 = Returns tt s2 /\
    jobs (jm s2) !! 1 = None.
Proof.
  destruct (kill_then_cleanup_removes os_fair 1
              (one_job JobStatusRunning (Some sleep_cmd)) 0%nat sleep_cmd sleep_process
              eq_refl ltac:(discriminate) eq_refl eq_refl)
    as (s1 & s2 & Hk & Hc & Hgone & _).
  exists s1, s2. split; [exact Hk|]. split; [exact Hc | exact Hgone].
Defined.

(** X9, an instance: shutdown on a system that refuses every signal. *)
Lemma shutdown_returns_and_keeps_table_witness :
  exists s',
    shutdown os_deny (fun _ => ret tt) two_jobs = Returns tt s' /\
    jm s' = jm two_jobs.
Proof.
  destruct (shutdown_returns_and_keeps_table os_deny (fun _ => ret tt)
              (fun d s => ex_intro _ s (conj eq_refl (conj eq_refl eq_refl))) two_jobs)
    as (s' & Hrun & Hj & _).
  exists s'. split; [exact Hrun | exact Hj].
Defined.

(** X10, an instance: shutdown with one running job on a system that
    delivers every signal. *)
Lemma shutdown_kills_every_job_witness :
  exists s',
    shutdown os_fair (fun _ => ret tt) (one_job JobStatusRunning (Some sleep_cmd)) =
      Returns tt s' /\
    Status (heap s' 0%nat) = JobStatusDone.
Proof.
  assert (Hok : table_consistent (one_job JobStatusRunning (Some sleep_cmd))).
  { intros id job Hl. cbn in Hl. apply lookup_singleton_Some in Hl as [<- <-].
    cbn. split; [reflexivity | discriminate]. }
  destruct (shutdown_kills_every_job os_fair (fun _ => ret tt)
              (fun d s => ex_intro _ s (conj eq_refl (conj eq_refl eq_refl)))
              (fun tr p => eq_refl) _ Hok)
    as (s' & Hrun & _ & Hall).
  exists s'. split; [exact Hrun|].
  apply (Hall 1 0%nat). reflexivity.
Defined.

(** X6, an instance: one running job, the loop visiting the table from
    its last entry to its first. *)
Lemma jobs_lists_the_live_jobs_witness :
  (forall (tr : list Event) (m : gmap Z loc),
     reverse (map_to_list m) ≡ₚ map_to_list m) /\
  exists s' times order,
    handleJobs os_fair Z.sub (fun d _ => d) (fun _ m => reverse (map_to_list m))
               ["jobs"] (one_job JobStatusRunning (Some sleep_cmd)) =
      Returns None s' /\
    length times = size (jobs (jm s')) /\
    order ≡ₚ map_to_list (jobs (jm s')) /\
    trace s' =
      trace (one_job JobStatusRunning (Some sleep_cmd)) ++
      (if decide (jobs (jm s') = ∅) then [EvPrintln "No active jobs"]
       else EvPrintln "Active jobs:" ::
            listing Z.sub (fun d _ => d)
                    (heap (one_job JobStatusRunning (Some sleep_cmd))) order times).
Proof.
  assert (Horder : forall (tr : list Event) (m : gmap Z loc),
             reverse (map_to_list m) ≡ₚ map_to_list m)
    by (intros tr m; apply reverse_Permutation).
  split; [exact Horder|].
  destruct (jobs_lists_the_live_jobs os_fair Z.sub (fun d _ => d)
              (fun _ m => reverse (map_to_list m)) ["jobs"]
              (one_job JobStatusRunning (Some sleep_cmd)) Horder)
    as (s' & times & order & Hrun & _ & _ & _ & Hlen & Hperm & Htrace).
  exists s', times, order. repeat split; assumption.
Defined.

(** X12, an instance: a line with a run of blanks and a tab. *)
Lemma tokenize_without_quotes_splits_at_blanks_witness :
  quote_free (sanitize (String "l" (String "s" (String tab "  -l dir ")))) = true /\
  ascii_only (String "l" (String "s" (String tab "  -l dir "))) = true /\
  tokenize (String "l" (String "s" (String tab "  -l dir "))) =
  filter (fun w : string => w <> "")
         (split_blanks (String "l" (String "s" (String tab "  -l dir ")))).
Proof.
  assert (Hq : quote_free (sanitize (String "l" (String "s" (String tab "  -l dir "))))
               = true) by (vm_compute; reflexivity).
  assert (Ha : ascii_only (String "l" (String "s" (String tab "  -l dir "))) = true)
    by (vm_compute; reflexivity).
  split; [exact Hq|]. split; [exact Ha|].
  destruct (tokenize_without_quotes_splits_at_blanks
              (String "l" (String "s" (String tab "  -l dir "))) Hq) as [_ H].
  exact (H Ha).
Defined.

(** X13, an instance: a line that ends in the background marker. *)
Lemma parse_gives_a_named_command_witness :
  parsed.Background (parsed.mkParsed "sleep" ["sleep"; "5"] true [["sleep"; "5"]]) =
  HasSuffix (ascii_TrimSpace " sleep 5 & ") "&".
Proof.
  destruct (parse_gives_a_named_command ascii_TrimSpace " sleep 5 & "
              (parsed.mkParsed "sleep" ["sleep"; "5"] true [["sleep"; "5"]]) eq_refl)
    as (_ & _ & _ & _ & Hbg & _).
  exact Hbg.
Defined.

(** X14, an instance: [jobs] is in the table and has its case. *)
Lemma builtin_table_matches_the_switch_witness :
  HandleCommand os_fair decimal_Atoi (fun _ _ => ret None)
                (Some (parsed.mkParsed "jobs" ["jobs"] false [["jobs"]])) =
  ret None.
Proof.
  destruct (builtin_table_matches_the_switch os_fair decimal_Atoi (fun _ _ => ret None)
              (parsed.mkParsed "jobs" ["jobs"] false [["jobs"]]))
    as (_ & H & _).
  exact (H eq_refl).
Defined.

(** X15, an instance: [fg 1] and [bg 1] on a table that holds job 1. *)
Lemma fg_bg_act_only_on_a_positive_id_witness :
  jobs (jm (one_job JobStatusStopped (Some sleep_cmd))) <> ∅ /\
  handleFG os_fair decimal_Atoi ["fg"; "1"] (one_job JobStatusStopped (Some sleep_cmd)) =
  BringToForeground os_fair 1 (one_job JobStatusStopped (Some sleep_cmd)) /\
  handleBG os_fair decimal_Atoi ["fg"; "1"] (one_job JobStatusStopped (Some sleep_cmd)) =
  ResumeInBackground os_fair 1 (one_job JobStatusStopped (Some sleep_cmd)).
Proof.
  assert (Hne : jobs (jm (one_job JobStatusStopped (Some sleep_cmd))) <> ∅).
  { intros E. apply (f_equal (fun m : gmap Z loc => m !! 1)) in E.
    vm_compute in E. discriminate E. }
  split; [exact Hne|].
  destruct (fg_bg_act_only_on_a_positive_id os_fair decimal_Atoi ["fg"; "1"]
              (one_job JobStatusStopped (Some sleep_cmd))) as [H _].
  apply (H "fg" "1" 1 eq_refl); [discriminate | reflexivity | lia | exact Hne].
Defined.

(** X16, an instance: a line with and without the marker. *)
Lemma background_marker_has_no_effect_witness :
  processInput os_fair ascii_TrimSpace decimal_Atoi (fun _ _ => ret None)
               "frobnicate 5 &" fresh_state =
  processInput os_fair ascii_TrimSpace decimal_Atoi (fun _ _ => ret None)
               "frobnicate 5" fresh_state.
Proof.
  apply (background_marker_has_no_effect os_fair ascii_TrimSpace decimal_Atoi
           (fun _ _ => ret None) "frobnicate 5 &" "frobnicate 5"
           (parsed.mkParsed "frobnicate" ["frobnicate"; "5"] true [["frobnicate"; "5"]])
           (parsed.mkParsed "frobnicate" ["frobnicate"; "5"] false [["frobnicate"; "5"]])
           fresh_state); reflexivity.
Defined.
